(** * Episodic few-shot data loading: a shallow embedding

    Embedding of [torch_uutils/dataloaders/old/episodic_dataloader.py]
    (classes [EpisodicSampler], [ClassDataset], [MetaSet_Dataset] and the two
    support/query splitting functions) together with [seed_everything] of
    [uutils/__init__.py].

    Modelling conventions.
    - Python [int]s are [Z]; Python exceptions are values of [Py.exn] carried by
      [Py.result].
    - A tensor is the (nested) list of its entries along its leading axes; the
      per-example payload (an image tensor of shape [C,H,W]) is an abstract
      type. [.to(device)] is the identity.
    - The global torch random number generator is explicit state of type [G],
      threaded through every call that draws from it; the library calls are
      taken by their contract (class [TorchRNG]), and a concrete generator
      instantiates it.
    - The file system and the image decoder are explicit parameters (class
      [FileSystem]); a concrete directory tree instantiates them.
    - What collation reads of an example tensor, its shape, is a parameter
      (class [TensorShape]).
    - Storage is not modelled: a tensor that is asked for is made. *)

From Stdlib Require Import ZArith List Lia Bool String Ascii Permutation Sorted.
Import ListNotations.
Local Open Scope Z_scope.

(** ** Python values, exceptions and sequence operations *)

Module Py.

Inductive exn : Set :=
| StopIteration
| IndexError
| ValueError
| RuntimeError
| TypeError
| OverflowError
| OSError (path : string).

Inductive result (A : Type) : Type :=
| Ok (a : A)
| Raise (e : exn).
Arguments Ok {A} a.
Arguments Raise {A} e.

Definition bind {A B} (r : result A) (k : A -> result B) : result B :=
  match r with
  | Ok a => k a
  | Raise e => Raise e
  end.

Definition len {A} (l : list A) : Z := Z.of_nat (List.length l).

(** [range(n)]: empty when [n <= 0]. *)
Definition range (n : Z) : list Z := map Z.of_nat (seq 0 (Z.to_nat n)).

(** Normalisation of a slice bound against a sequence of length [n]:
    a negative bound counts from the end, and the result is clamped
    to [0..n]. *)
Definition clamp (k n : Z) : Z :=
  if k <? 0 then Z.max (k + n) 0 else Z.min k n.

(** [l[:k]] *)
Definition slice_to {A} (k : Z) (l : list A) : list A :=
  firstn (Z.to_nat (clamp k (len l))) l.

(** [l[k:]] *)
Definition slice_from {A} (k : Z) (l : list A) : list A :=
  skipn (Z.to_nat (clamp k (len l))) l.

(** [l[i]]: a negative index counts from the end; out of range raises. *)
Definition getitem {A} (l : list A) (i : Z) : result A :=
  let j := if i <? 0 then i + len l else i in
  if (j <? 0) || (len l <=? j) then Raise IndexError
  else match nth_error l (Z.to_nat j) with
       | Some a => Ok a
       | None => Raise IndexError
       end.

(** A [str] is held as its UTF-8 bytes. A byte [10xxxxxx] continues the
    code point that the nearest byte before it of another form starts. *)
Definition is_continuation (c : ascii) : bool :=
  match c with
  | Ascii _ _ _ _ _ _ b6 b7 => b7 && negb b6
  end.

(** The code points of a string, from the right: the continuation bytes
    that still wait for their leading byte, and the code points after
    them. *)
Fixpoint split_code_points (s : string) : string * list string :=
  match s with
  | EmptyString => (EmptyString, [])
  | String c s' =>
      let (pending, done) := split_code_points s' in
      if is_continuation c then (String c pending, done)
      else (EmptyString, String c pending :: done)
  end.

(** A Python string seen as a sequence: its one-character strings, one per
    code point. *)
Definition chars (s : string) : list string :=
  let (pending, done) := split_code_points s in
  match pending with
  | EmptyString => done
  | _ => pending :: done
  end.

End Py.
Import Py.

(** ** The torch random number generator

    [torch.randperm(n)] draws from the global generator and returns a
    permutation of [0 .. n-1]; it rejects a negative [n].
    [torch.manual_seed(seed)] overwrites the generator state with one that
    depends on the seed only. [random_] is one 64-bit draw
    ([torch.empty((), dtype=torch.int64).random_().item()]). *)

Class TorchRNG (G : Type) : Type := {
  manual_seed : Z -> G -> G;
  randperm : Z -> G -> result (list Z) * G;
  random_ : G -> Z * G;
  manual_seed_overwrites :
    forall seed g1 g2, manual_seed seed g1 = manual_seed seed g2;
  randperm_permutation :
    forall n g, 0 <= n ->
      exists p, fst (randperm n g) = Ok p /\ Permutation p (range n);
  randperm_negative :
    forall n g, n < 0 -> fst (randperm n g) = Raise RuntimeError
}.

(** [uutils.seed_everything], as it acts on the torch generator.
    [random.seed] takes any integer; [np.random.seed] raises [ValueError]
    for a seed outside [[0, 2^32 - 1]], and [torch.manual_seed] is then not
    reached. *)
Definition seed_everything {G} `{TorchRNG G} (seed : Z) (g : G)
  : result unit * G :=
  if (seed <? 0) || (2 ^ 32 <=? seed) then (Raise ValueError, g)
  else (Ok tt, manual_seed seed g).

(** ** EpisodicSampler *)

Module EpisodicSampler.

Record self : Set := Build {
  total_classes : Z;
  n_classes : Z;
  n_episode : Z
}.

(** The constructor stores its three arguments and has no failing path. *)
Definition __init__ (total_classes n_classes n_episode : Z) : result self :=
  Ok (Build total_classes n_classes n_episode).

Definition __len__ (s : self) : Z := n_episode s.

(** The generator object returned by [__iter__]: either suspended inside
    [for episode in range(self.n_episode)] with [episode] the next value of
    the loop variable, or finished. Every call of [__iter__] makes a new
    one. *)
Inductive generator : Set :=
| Suspended (s : self) (episode : Z)
| Finished.

Definition __iter__ (s : self) : generator := Suspended s 0.

(** [next(gen)]: runs the body up to the next [yield]. An exception raised
    in the body finishes the generator. *)
Definition next {G} `{TorchRNG G} (gen : generator) (g : G)
  : result (list Z) * generator * G :=
  match gen with
  | Finished => (Raise StopIteration, Finished, g)
  | Suspended s episode =>
      if episode <? n_episode s then
        match randperm (total_classes s) g with
        | (Ok random_for_indices_all_tasks, g') =>
            let indices_batch_tasks :=
              slice_to (n_classes s) random_for_indices_all_tasks in
            (Ok indices_batch_tasks, Suspended s (episode + 1), g')
        | (Raise e, g') => (Raise e, Finished, g')
        end
      else (Raise StopIteration, Finished, g)
  end.

(** How a full consumption of a generator ([list(gen)], a [for] loop) ends:
    by [StopIteration], or by an exception that propagates to the caller. *)
Inductive ending : Set :=
| Stopped
| Failed (e : exn).

(** Consuming a generator: the groups yielded, how the consumption ended,
    and the generator and random state left behind. [None] when [fuel]
    calls of [next] were not enough. *)
Fixpoint consume {G} `{TorchRNG G} (fuel : nat) (gen : generator) (g : G)
  : option (list (list Z) * ending * generator * G) :=
  match fuel with
  | O => None
  | S fuel' =>
      match next gen g with
      | (Ok group, gen', g') =>
          match consume fuel' gen' g' with
          | Some (groups, e, gen'', g'') => Some (group :: groups, e, gen'', g'')
          | None => None
          end
      | (Raise StopIteration, gen', g') => Some ([], Stopped, gen', g')
      | (Raise e, gen', g') => Some ([], Failed e, gen', g')
      end
  end.

(** Calls of [next] a full consumption needs: one per remaining episode
    and one for the final [StopIteration]. *)
Definition calls_left (gen : generator) : nat :=
  match gen with
  | Finished => 1
  | Suspended s episode => S (Z.to_nat (n_episode s - episode))
  end.

(** [list(iter(sampler))] *)
Definition to_list {G} `{TorchRNG G} (s : self) (g : G)
  : option (list (list Z) * ending * generator * G) :=
  let gen := __iter__ s in consume (calls_left gen) gen g.

End EpisodicSampler.

(** ** The file system and the image decoder

    [listdir] is [os.listdir] (the entries of a directory, in no particular
    order; it raises when the directory is missing), [glob] is [glob.glob]
    and [open_rgb] is [PIL.Image.open(path).convert('RGB')]. *)

Class FileSystem (Image : Type) : Type := {
  listdir : string -> result (list string);
  glob : string -> list string;
  open_rgb : string -> result Image
}.

Module os_path.

Definition starts_with_sep (s : string) : bool :=
  match s with
  | String "/"%char _ => true
  | _ => false
  end.

Fixpoint ends_with_sep (s : string) : bool :=
  match s with
  | EmptyString => false
  | String c EmptyString => Ascii.eqb c "/"%char
  | String _ s' => ends_with_sep s'
  end.

(** One step of [os.path.join]: an absolute component replaces what came
    before; otherwise it is appended, after a separator unless the path so
    far is empty or already ends in one. *)
Definition join2 (path b : string) : string :=
  if starts_with_sep b then b
  else if (String.eqb path "" || ends_with_sep path)%bool then (path ++ b)%string
  else (path ++ "/" ++ b)%string.

Definition join (a : string) (rest : list string) : string :=
  fold_left join2 rest a.

End os_path.

(** [sorted] on a list of strings: insertion sort by code points. *)
Fixpoint insert_sorted (s : string) (l : list string) : list string :=
  match l with
  | [] => [s]
  | x :: l' => if String.leb s x then s :: l else x :: insert_sorted s l'
  end.

Definition sorted (l : list string) : list string :=
  fold_right insert_sorted [] l.

(** [enumerate(l)] *)
Fixpoint enumerate_from {A} (i : Z) (l : list A) : list (Z * A) :=
  match l with
  | [] => []
  | x :: l' => (i, x) :: enumerate_from (i + 1) l'
  end.

Definition enumerate {A} (l : list A) : list (Z * A) := enumerate_from 0 l.

(** A list comprehension over a fallible function: evaluated left to right,
    the first exception stops it. *)
Fixpoint for_each {A B} (f : A -> result B) (l : list A) : result (list B) :=
  match l with
  | [] => Ok []
  | a :: l' =>
      bind (f a) (fun b => bind (for_each f l') (fun bs => Ok (b :: bs)))
  end.

(** ** ClassDataset

    [Image] is a decoded PIL image and [Tensor] what a transform makes of
    it. A transform is taken as a function of the image: the random numbers
    that data augmentation draws are outside the model. *)

Module ClassDataset.

(** What the [images] attribute holds: any Python sequence of strings.
    Indexing a [str] gives its one-character strings. *)
Inductive sequence : Set :=
| Str (s : string)
| PathList (paths : list string).

Definition items (v : sequence) : list string :=
  match v with
  | Str s => chars s
  | PathList paths => paths
  end.

Record self (Image Tensor : Type) : Type := Build {
  images : sequence;
  label : Z;
  transform : option (Image -> Tensor)
}.
Arguments Build {Image Tensor} images label transform.
Arguments images {Image Tensor} s.
Arguments label {Image Tensor} s.
Arguments transform {Image Tensor} s.

Definition __init__ {Image Tensor} (images : sequence) (label : Z)
    (transform : option (Image -> Tensor)) : self Image Tensor :=
  Build images label transform.

(** The example returned is the decoded image itself when there is no
    transform, and the transformed image otherwise. *)
Definition __getitem__ {Image Tensor} `{FileSystem Image}
    (s : self Image Tensor) (idx : Z) : result ((Image + Tensor) * Z) :=
  bind (getitem (items (images s)) idx) (fun path =>
  bind (open_rgb path) (fun image =>
  let image := match transform s with
               | Some t => inr (t image)
               | None => inl image
               end in
  Ok (image, label s))).

Definition __len__ {Image Tensor} (s : self Image Tensor) : Z :=
  len (items (images s)).

End ClassDataset.

(** ** torch.utils.data.DataLoader over a ClassDataset

    The loader as [MetaSet_Dataset] configures it: [shuffle=True],
    [num_workers=0], [drop_last] left at its default [False], default
    collation. Construction rejects a non-positive batch size, and (torch 1.x)
    an empty dataset under [shuffle=True]. [iter(loader)] draws the base seed
    of the iterator from the global generator. The batch that [next] then
    returns is made of the first [batch_size] indices of a random permutation
    of [range(len(dataset))], all of them when there are fewer; the examples
    are fetched in that order and collated. *)

(** What collation reads of an example tensor: its shape. *)
Class TensorShape (Tensor : Type) : Type := {
  shape : Tensor -> list Z
}.

Fixpoint same_shape (s1 s2 : list Z) : bool :=
  match s1, s2 with
  | [], [] => true
  | d1 :: s1', d2 :: s2' => (d1 =? d2) && same_shape s1' s2'
  | _, _ => false
  end.

Module DataLoader.

Record self (Image Tensor : Type) : Type := Build {
  dataset : ClassDataset.self Image Tensor;
  batch_size : Z
}.
Arguments Build {Image Tensor} dataset batch_size.
Arguments dataset {Image Tensor} s.
Arguments batch_size {Image Tensor} s.

Definition __init__ {Image Tensor} (dataset : ClassDataset.self Image Tensor)
    (batch_size : Z) : result (self Image Tensor) :=
  if batch_size <=? 0 then Raise ValueError
  else if ClassDataset.__len__ dataset <=? 0 then Raise ValueError
  else Ok (Build dataset batch_size).

(** [torch.stack] on the examples of a batch: it rejects an empty list and
    tensors that are not all of one shape. *)
Definition stack {Tensor} `{TensorShape Tensor} (tensors : list Tensor)
  : result (list Tensor) :=
  match tensors with
  | [] => Raise RuntimeError
  | t :: rest =>
      if forallb (fun t' => same_shape (shape t') (shape t)) rest then Ok tensors
      else Raise RuntimeError
  end.

(** Default collation of [(image, label)] samples: the images are stacked
    into one tensor, which only tensors allow, and only tensors of one
    shape; the labels are gathered into another. *)
Definition collate {Image Tensor} `{TensorShape Tensor}
    (samples : list ((Image + Tensor) * Z)) : result (list Tensor * list Z) :=
  bind (for_each (fun sample : (Image + Tensor) * Z =>
                    match fst sample with
                    | inr tensor => Ok tensor
                    | inl _ => Raise TypeError
                    end)
                 samples)
       (fun tensors =>
  bind (stack tensors) (fun stacked => Ok (stacked, map snd samples))).

(** [next(iter(loader))] *)
Definition first_batch {G Image Tensor} `{TorchRNG G} `{TensorShape Tensor}
    `{FileSystem Image}
    (s : self Image Tensor) (g : G) : result (list Tensor * list Z) * G :=
  let (base_seed, g) := random_ g in
  match randperm (ClassDataset.__len__ (dataset s)) g with
  | (Ok indices, g') =>
      match firstn (Z.to_nat (batch_size s)) indices with
      | [] => (Raise StopIteration, g')
      | batch =>
          (bind (for_each (ClassDataset.__getitem__ (dataset s)) batch) collate,
           g')
      end
  | (Raise e, g') => (Raise e, g')
  end.

End DataLoader.

(** ** MetaSet_Dataset *)

Module MetaSet_Dataset.

Record self (Image Tensor : Type) : Type := Build {
  labels : list string;
  episode_loader : list (DataLoader.self Image Tensor)
}.
Arguments Build {Image Tensor} labels episode_loader.
Arguments labels {Image Tensor} s.
Arguments episode_loader {Image Tensor} s.

(** The first loop of [__init__]. For each label the glob pattern
    [path_to_Dt] is formed and expanded into [list_pathnames_of_images],
    and what is appended to the result is [path_to_Dt]. *)
Definition meta_set_as_paths {Image} `{FileSystem Image}
    (root : string) (labels : list string) : list ClassDataset.sequence :=
  map (fun label =>
         let path_to_Dt := os_path.join root [label; "*"%string] in
         let list_pathnames_of_images := glob path_to_Dt in
         ClassDataset.Str path_to_Dt)
      labels.

(** The second loop of [__init__], over [enumerate(self.labels)], with the
    list [episode_loader] built so far. *)
Fixpoint build_loaders {Image Tensor} (todo : list (Z * string))
    (meta_set_as_paths : list ClassDataset.sequence)
    (k_shot k_eval : Z) (transform : option (Image -> Tensor))
    (episode_loader : list (DataLoader.self Image Tensor))
  : result (list (DataLoader.self Image Tensor)) :=
  match todo with
  | [] => Ok episode_loader
  | (idx, _) :: todo' =>
      let label := idx in
      bind (getitem meta_set_as_paths idx) (fun path_to_task_imgs =>
      let Dt_classdataset :=
        ClassDataset.__init__ path_to_task_imgs label transform in
      let nb_examples_for_S_Q := k_shot + k_eval in
      bind (DataLoader.__init__ Dt_classdataset nb_examples_for_S_Q)
           (fun Dt_class_loader =>
      build_loaders todo' meta_set_as_paths k_shot k_eval transform
                    (episode_loader ++ [Dt_class_loader])))
  end.

Definition __init__ {Image Tensor} `{FileSystem Image}
    (root phase : string) (k_shot k_eval : Z)
    (transform : option (Image -> Tensor)) : result (self Image Tensor) :=
  let root := os_path.join root [phase] in
  bind (listdir root) (fun entries =>
  let labels := sorted entries in
  let paths := meta_set_as_paths root labels in
  bind (build_loaders (enumerate labels) paths k_shot k_eval transform [])
       (fun episode_loader => Ok (Build labels episode_loader))).

Definition __getitem__ {G Image Tensor} `{TorchRNG G} `{TensorShape Tensor}
    `{FileSystem Image}
    (s : self Image Tensor) (idx : Z) (g : G)
  : result (list Tensor * list Z) * G :=
  let label := idx in
  match getitem (episode_loader s) label with
  | Ok Dt_task_dataloader => DataLoader.first_batch Dt_task_dataloader g
  | Raise e => (Raise e, g)
  end.

Definition __len__ {Image Tensor} (s : self Image Tensor) : Z := len (labels s).

End MetaSet_Dataset.

(** ** Splitting an episode into support and query sets *)

(** The fields of the experiment arguments that the splitting functions read.
    [args.device] only names where the tensors live. *)
Record args : Set := Build_args {
  n_classes : Z;
  k_shot : Z;
  k_eval : Z
}.

Module torch.

(** [torch.tensor(l).repeat(k)] on a one-dimensional tensor, for a count
    [k] that fits a 64-bit integer, as every count bounded by the size of a
    tensor does: [k] copies of [l] in a row; a negative [k] is rejected. *)
Definition repeat (l : list Z) (k : Z) : result (list Z) :=
  if k <? 0 then Raise RuntimeError
  else Ok (List.concat (List.repeat l (Z.to_nat k))).

(** [torch.stack(rows)]: rejects an empty list and rows of unequal size. *)
Definition stack {A} (rows : list (list A)) : result (list (list A)) :=
  match rows with
  | [] => Raise RuntimeError
  | r :: rest =>
      if forallb (fun r' => len r' =? len r) rest then Ok rows
      else Raise RuntimeError
  end.

(** [t.reshape(-1, *CHW)] on a tensor of shape [N, k, C, H, W]: the two
    leading axes are merged. *)
Definition reshape {A} (t : list (list A)) : list A := List.concat t.

End torch.

Module np.

(** [np.repeat(l, k)], for a count [k] that fits a 64-bit integer: every
    element repeated [k] times in place; a negative [k] is rejected. *)
Definition repeat (l : list Z) (k : Z) : result (list Z) :=
  if k <? 0 then Raise ValueError
  else Ok (flat_map (fun i => List.repeat i (Z.to_nat k)) l).

End np.

Section Split.

(** [X] is one example, a tensor of shape [C, H, W]. *)
Context {X : Type}.

Definition get_support_query_batch_of_tasks_class_is_task_M_eq_N
    (a : args) (SQ_x : list (list X)) (SQ_y : list (list Z))
  : result (list (list X) * list (list Z) * list (list X) * list (list Z)) :=
  let list_classes := range (n_classes a) in
  let S_x := map (slice_to (k_shot a)) SQ_x in
  bind (for_each (fun i => torch.repeat [i] (k_shot a)) list_classes) (fun rows =>
  bind (torch.stack rows) (fun S_y =>
  let Q_x := map (slice_from (k_shot a)) SQ_x in
  bind (for_each (fun i => torch.repeat [i] (k_eval a)) list_classes) (fun rows =>
  bind (torch.stack rows) (fun Q_y =>
  Ok (S_x, S_y, Q_x, Q_y))))).

Definition get_support_query_set_for_data_set_is_task
    (a : args) (SQ_x : list (list X)) (SQ_y : list (list Z))
  : result (list X * list Z * list X * list Z) :=
  let list_classes := range (n_classes a) in
  let S_x := map (slice_to (k_shot a)) SQ_x in
  bind (np.repeat list_classes (k_shot a)) (fun S_y =>
  let Q_x := map (slice_from (k_shot a)) SQ_x in
  bind (np.repeat list_classes (k_eval a)) (fun Q_y =>
  let S_x := torch.reshape S_x in
  let Q_x := torch.reshape Q_x in
  Ok (S_x, S_y, Q_x, Q_y))).

End Split.

(** ** A concrete random number generator

    A 64-bit linear congruential generator with a shuffle built on it. It
    instantiates [TorchRNG] and is what the closed examples run on. *)

Module Lcg.

Definition modulus : Z := 2 ^ 64.

Definition step (g : Z) : Z :=
  (6364136223846793005 * g + 1442695040888963407) mod modulus.

Definition insert_at {A} (pos : nat) (x : A) (l : list A) : list A :=
  firstn pos l ++ x :: skipn pos l.

(** Each element of [todo] is inserted at a drawn position of [placed]. *)
Fixpoint shuffle (todo placed : list Z) (g : Z) : list Z * Z :=
  match todo with
  | [] => (placed, g)
  | x :: todo' =>
      let g' := step g in
      let pos := Z.to_nat ((g' / 2 ^ 33) mod (len placed + 1)) in
      shuffle todo' (insert_at pos x placed) g'
  end.

Definition randperm (n : Z) (g : Z) : result (list Z) * Z :=
  if n <? 0 then (Raise RuntimeError, g)
  else let (p, g') := shuffle (range n) [] g in (Ok p, g').

Definition manual_seed (seed : Z) (_ : Z) : Z := seed mod modulus.

Definition random_ (g : Z) : Z * Z := let g' := step g in (g', g').

Lemma insert_at_perm {A} (pos : nat) (x : A) (l : list A) :
  Permutation (insert_at pos x l) (x :: l).
Proof.
  unfold insert_at. symmetry.
  rewrite <- (firstn_skipn pos l) at 1.
  apply Permutation_middle.
Qed.

Lemma shuffle_perm (todo : list Z) :
  forall placed g, Permutation (fst (shuffle todo placed g)) (todo ++ placed).
Proof.
  induction todo as [|x todo IH]; intros placed g; simpl.
  - reflexivity.
  - rewrite IH. rewrite insert_at_perm. symmetry. apply Permutation_middle.
Qed.

Lemma randperm_permutation (n g : Z) :
  0 <= n -> exists p, fst (randperm n g) = Ok p /\ Permutation p (range n).
Proof.
  intros Hn. unfold randperm.
  destruct (n <? 0) eqn:E; [apply Z.ltb_lt in E; lia|].
  pose proof (shuffle_perm (range n) [] g) as P.
  destruct (shuffle (range n) [] g) as [p g']. simpl in *.
  exists p. split; [reflexivity|]. now rewrite app_nil_r in P.
Qed.

Lemma randperm_negative (n g : Z) :
  n < 0 -> fst (randperm n g) = Raise RuntimeError.
Proof.
  intros Hn. unfold randperm.
  destruct (n <? 0) eqn:E; [reflexivity|apply Z.ltb_ge in E; lia].
Qed.

End Lcg.

#[global] Instance lcg_rng : TorchRNG Z := {|
  manual_seed := Lcg.manual_seed;
  randperm := Lcg.randperm;
  random_ := Lcg.random_;
  manual_seed_overwrites := fun _ _ _ => eq_refl;
  randperm_permutation := Lcg.randperm_permutation;
  randperm_negative := Lcg.randperm_negative
|}.

(** ** A concrete directory tree

    [data/train] holds two classes, [dog] with three images and [cat] with
    two; [data/val] exists and is empty; there is no [data/test]. A decoded
    image is identified by the path it was read from, and the tensor made of
    it by the same path. *)

Module Demo.

Definition cat_images : list string :=
  ["data/train/cat/1.jpg"; "data/train/cat/2.jpg"]%string.

Definition dog_images : list string :=
  ["data/train/dog/1.jpg"; "data/train/dog/2.jpg"; "data/train/dog/3.jpg"]%string.

Definition mem (p : string) (l : list string) : bool :=
  existsb (String.eqb p) l.

Definition listdir (p : string) : result (list string) :=
  if String.eqb p "data/train" then Ok ["dog"; "cat"]%string
  else if String.eqb p "data/val" then Ok []
  else if String.eqb p "data/train/cat" then Ok ["2.jpg"; "1.jpg"]%string
  else if String.eqb p "data/train/dog" then Ok ["3.jpg"; "1.jpg"; "2.jpg"]%string
  else Raise (OSError p).

Definition glob (pattern : string) : list string :=
  if String.eqb pattern "data/train/cat/*" then cat_images
  else if String.eqb pattern "data/train/dog/*" then dog_images
  else [].

Definition open_rgb (p : string) : result string :=
  if mem p (cat_images ++ dog_images) then Ok p else Raise (OSError p).

(** [transforms.ToTensor()] *)
Definition to_tensor (image : string) : string := image.

End Demo.

(** The tensor made of an image has the size of the image: every picture
    is 84 by 84, except one named [a], which is 64 by 64. *)
#[global] Instance demo_shape : TensorShape string := {|
  shape := fun tensor =>
    if String.eqb tensor "a" then [3; 64; 64] else [3; 84; 84]
|}.

#[global] Instance demo_fs : FileSystem string := {|
  listdir := Demo.listdir;
  glob := Demo.glob;
  open_rgb := Demo.open_rgb
|}.

(** * Properties *)

(** ** Sequence operations *)

Lemma len_nonneg {A} (l : list A) : 0 <= len l.
Proof. unfold len. lia. Qed.

Lemma range_length (n : Z) : List.length (range n) = Z.to_nat n.
Proof. unfold range. now rewrite length_map, length_seq. Qed.

Lemma len_range (n : Z) : 0 <= n -> len (range n) = n.
Proof. intros Hn. unfold len. rewrite range_length. lia. Qed.

Lemma range_nonpos (n : Z) : n <= 0 -> range n = [].
Proof.
  intros Hn. unfold range. replace (Z.to_nat n) with O by lia. reflexivity.
Qed.

Lemma in_range (n i : Z) : In i (range n) <-> 0 <= i < n.
Proof.
  unfold range. rewrite in_map_iff. split.
  - intros (k & <- & Hk). apply in_seq in Hk. lia.
  - intros Hi. exists (Z.to_nat i). split; [lia|]. apply in_seq. lia.
Qed.

Lemma NoDup_range (n : Z) : NoDup (range n).
Proof.
  unfold range. generalize (seq_NoDup (Z.to_nat n) 0).
  induction 1 as [|k l Hk Hl IH]; simpl; constructor; auto.
  rewrite in_map_iff. intros (k' & E & Hin).
  apply Nat2Z.inj in E. now subst.
Qed.

Lemma len_slice_to {A} (k : Z) (l : list A) :
  len (slice_to k l) = clamp k (len l).
Proof.
  unfold slice_to, len at 1. rewrite length_firstn.
  pose proof (len_nonneg l) as Hl. unfold len in *.
  unfold clamp. destruct (k <? 0) eqn:E;
    [apply Z.ltb_lt in E | apply Z.ltb_ge in E]; lia.
Qed.

Lemma clamp_inside (k n : Z) : 0 <= k <= n -> clamp k n = k.
Proof.
  intros Hk. unfold clamp.
  destruct (k <? 0) eqn:E; [apply Z.ltb_lt in E|]; lia.
Qed.

Lemma clamp_above (k n : Z) : 0 <= n <= k -> clamp k n = n.
Proof.
  intros Hk. unfold clamp.
  destruct (k <? 0) eqn:E; [apply Z.ltb_lt in E|]; lia.
Qed.

Lemma slice_to_all {A} (k : Z) (l : list A) : len l <= k -> slice_to k l = l.
Proof.
  intros Hk. unfold slice_to. pose proof (len_nonneg l) as Hl.
  rewrite clamp_above by lia. unfold len. rewrite Nat2Z.id. apply firstn_all.
Qed.

Lemma slice_to_from {A} (k : Z) (l : list A) :
  slice_to k l ++ slice_from k l = l.
Proof. unfold slice_to, slice_from. apply firstn_skipn. Qed.

Lemma slice_to_incl {A} (k : Z) (l : list A) (x : A) :
  In x (slice_to k l) -> In x l.
Proof.
  intros Hx. rewrite <- (slice_to_from k l). apply in_or_app. now left.
Qed.

Lemma NoDup_slice_to {A} (k : Z) (l : list A) : NoDup l -> NoDup (slice_to k l).
Proof.
  intros Hl. rewrite <- (slice_to_from k l) in Hl.
  exact (NoDup_app_remove_r _ _ Hl).
Qed.

(** What a group is, whatever the parameters: a prefix of a permutation of
    [range total_classes]. *)
Definition prefix_of_permutation (total_classes n_classes : Z) (group : list Z)
  : Prop :=
  exists p, Permutation p (range total_classes) /\ group = slice_to n_classes p.

Lemma prefix_of_permutation_len (tc nc : Z) (group : list Z) :
  0 <= tc -> prefix_of_permutation tc nc group -> len group = clamp nc tc.
Proof.
  intros Htc (p & Hp & ->). rewrite len_slice_to. f_equal.
  unfold len. rewrite (Permutation_length Hp), range_length. lia.
Qed.

Lemma prefix_of_permutation_NoDup (tc nc : Z) (group : list Z) :
  prefix_of_permutation tc nc group -> NoDup group.
Proof.
  intros (p & Hp & ->). apply NoDup_slice_to.
  apply (Permutation_NoDup (Permutation_sym Hp)), NoDup_range.
Qed.

Lemma prefix_of_permutation_bounds (tc nc : Z) (group : list Z) :
  prefix_of_permutation tc nc group -> Forall (fun i => 0 <= i < tc) group.
Proof.
  intros (p & Hp & ->). apply Forall_forall. intros i Hi.
  apply in_range. apply (Permutation_in _ Hp). eapply slice_to_incl, Hi.
Qed.

(** ** The episodic sampler *)

Section Sampler.

Context {G : Type} `{TorchRNG G}.
Import EpisodicSampler.

Lemma randperm_ok (n : Z) (g : G) :
  0 <= n ->
  exists p g', randperm n g = (Ok p, g') /\ Permutation p (range n).
Proof.
  intros Hn. destruct (randperm_permutation n g Hn) as (p & E & P).
  destruct (randperm n g) as [r g'] eqn:R. simpl in E. subst r.
  now exists p, g'.
Qed.

Lemma randperm_fails (n : Z) (g : G) :
  n < 0 -> exists g', randperm n g = (Raise RuntimeError, g').
Proof.
  intros Hn. pose proof (randperm_negative n g Hn) as E.
  destruct (randperm n g) as [r g'] eqn:R. simpl in E. subst r.
  now exists g'.
Qed.

(** A step of a suspended generator that has episodes left. *)
Lemma next_yields (s : self) (episode : Z) (g : G) :
  0 <= total_classes s -> episode < n_episode s ->
  exists group g',
    next (Suspended s episode) g = (Ok group, Suspended s (episode + 1), g')
    /\ prefix_of_permutation (total_classes s) (n_classes s) group.
Proof.
  intros Htc He. destruct (randperm_ok (total_classes s) g Htc) as (p & g' & R & P).
  exists (slice_to (n_classes s) p), g'. split.
  - unfold next. apply Z.ltb_lt in He. now rewrite He, R.
  - now exists p.
Qed.

Lemma next_stops (s : self) (episode : Z) (g : G) :
  n_episode s <= episode ->
  next (Suspended s episode) g = (Raise StopIteration, Finished, g).
Proof. intros He. unfold next. apply Z.ltb_ge in He. now rewrite He. Qed.

(** Whatever [next] yields is a prefix of a permutation. *)
Lemma next_group (gen gen' : generator) (g g' : G) (group : list Z) :
  next gen g = (Ok group, gen', g') ->
  exists s episode,
    gen = Suspended s episode
    /\ prefix_of_permutation (total_classes s) (n_classes s) group
    /\ 0 <= total_classes s.
Proof.
  destruct gen as [s episode|]; simpl; [|discriminate].
  destruct (episode <? n_episode s); [|discriminate].
  destruct (Z_lt_le_dec (total_classes s) 0) as [Hneg|Hpos].
  - destruct (randperm_fails (total_classes s) g Hneg) as (g1 & ->). discriminate.
  - destruct (randperm_ok (total_classes s) g Hpos) as (p & g1 & -> & P).
    intros [= <- <- <-]. exists s, episode. repeat split; auto. now exists p.
Qed.

(** Consuming a suspended generator: with [k] episodes left, [k + 1] calls
    of [next] yield [k] groups and end in [StopIteration]. *)
Lemma consume_suspended (k : nat) :
  forall (s : self) (episode : Z) (g : G),
    0 <= total_classes s ->
    Z.to_nat (n_episode s - episode) = k ->
    exists groups g',
      consume (S k) (Suspended s episode) g = Some (groups, Stopped, Finished, g')
      /\ List.length groups = k
      /\ Forall (prefix_of_permutation (total_classes s) (n_classes s)) groups.
Proof.
  induction k as [|k IH]; intros s episode g Htc Hk.
  - exists [], g. cbn [consume]. rewrite next_stops by lia. auto.
  - destruct (next_yields s episode g Htc) as (group & g1 & N & P); [lia|].
    destruct (IH s (episode + 1) g1 Htc) as (groups & g2 & C & L & F); [lia|].
    exists (group :: groups), g2. split; [|split].
    + change (consume (S (S k)) (Suspended s episode) g)
        with (match next (Suspended s episode) g with
              | (Ok group, gen', g') =>
                  match consume (S k) gen' g' with
                  | Some (groups, e, gen'', g'') =>
                      Some (group :: groups, e, gen'', g'')
                  | None => None
                  end
              | (Raise StopIteration, gen', g') => Some ([], Stopped, gen', g')
              | (Raise e, gen', g') => Some ([], Failed e, gen', g')
              end).
      now rewrite N, C.
    + simpl. now rewrite L.
    + now constructor.
Qed.

(** [list(iter(s))] for a sampler over a non-negative number of classes. *)
Lemma to_list_spec (s : self) (g : G) :
  0 <= total_classes s ->
  exists groups g',
    to_list s g = Some (groups, Stopped, Finished, g')
    /\ len groups = Z.max 0 (n_episode s)
    /\ Forall (prefix_of_permutation (total_classes s) (n_classes s)) groups.
Proof.
  intros Htc. unfold to_list, __iter__, calls_left.
  destruct (consume_suspended (Z.to_nat (n_episode s - 0)) s 0 g Htc eq_refl)
    as (groups & g' & C & L & F).
  exists groups, g'. repeat split; auto. unfold len. rewrite L. lia.
Qed.

(** With a negative number of classes the first [next] raises. *)
Lemma to_list_negative_total (s : self) (g : G) :
  total_classes s < 0 -> 0 < n_episode s ->
  exists g', to_list s g = Some ([], Failed RuntimeError, Finished, g').
Proof.
  intros Htc Hne. destruct (randperm_fails (total_classes s) g Htc) as (g' & R).
  exists g'. unfold to_list, __iter__, calls_left.
  replace (Z.to_nat (n_episode s - 0)) with (S (Z.to_nat (n_episode s - 1))) by lia.
  cbn [consume]. unfold next. apply Z.ltb_lt in Hne. now rewrite Hne, R.
Qed.

End Sampler.

(** With no episode to run, nothing is drawn and nothing is yielded. *)
Lemma to_list_no_episode {G} `{TorchRNG G} (s : EpisodicSampler.self) (g : G) :
  EpisodicSampler.n_episode s <= 0 ->
  EpisodicSampler.to_list s g
  = Some ([], EpisodicSampler.Stopped, EpisodicSampler.Finished, g).
Proof.
  intros Hne. unfold EpisodicSampler.to_list, EpisodicSampler.__iter__.
  unfold EpisodicSampler.calls_left. cbn [EpisodicSampler.consume].
  rewrite next_stops by lia. reflexivity.
Qed.

(** A group is valid for [n_classes] out of [total_classes]. *)
Definition valid_group (total_classes n_classes : Z) (group : list Z) : Prop :=
  len group = n_classes
  /\ NoDup group
  /\ Forall (fun i => 0 <= i < total_classes) group.

Lemma prefix_valid (tc nc : Z) (group : list Z) :
  0 <= nc <= tc -> prefix_of_permutation tc nc group -> valid_group tc nc group.
Proof.
  intros Hnc P. repeat split.
  - rewrite (prefix_of_permutation_len tc nc) by (auto; lia).
    now apply clamp_inside.
  - eapply prefix_of_permutation_NoDup, P.
  - eapply prefix_of_permutation_bounds, P.
Qed.

(** C1. A sampler constructed with [0 < n_classes <= total_classes] and
    [n_episode >= 0] can be iterated to the end, and every index group it
    yields, in a full iteration or at any single [next], has exactly
    [n_classes] entries, pairwise distinct, each in [[0, total_classes)]. *)
Theorem sampler_groups_valid {G} `{TorchRNG G}
    (total_classes n_classes n_episode : Z) (s : EpisodicSampler.self) (g : G) :
  0 < n_classes <= total_classes ->
  0 <= n_episode ->
  EpisodicSampler.__init__ total_classes n_classes n_episode = Ok s ->
  (exists groups g',
      EpisodicSampler.to_list s g
      = Some (groups, EpisodicSampler.Stopped, EpisodicSampler.Finished, g')
      /\ Forall (valid_group total_classes n_classes) groups)
  /\ (forall episode g0 group gen' g1,
        EpisodicSampler.next (EpisodicSampler.Suspended s episode) g0
        = (Ok group, gen', g1) ->
        valid_group total_classes n_classes group).
Proof.
  intros Hnc Hne [= <-]. split.
  - destruct (to_list_spec (EpisodicSampler.Build total_classes n_classes n_episode) g)
      as (groups & g' & E & _ & F); [simpl; lia|].
    exists groups, g'. split; [exact E|].
    simpl in F. eapply Forall_impl; [|exact F].
    intros group. apply prefix_valid. lia.
  - intros episode g0 group gen' g1 N.
    destruct (next_group _ _ _ _ _ N) as (s' & e' & [= <- <-] & P & _).
    simpl in P. apply prefix_valid; [lia|exact P].
Qed.

Lemma sampler_groups_valid_witness :
  (0 < 5 <= 10 /\ 0 <= 3)
  /\ (exists groups g',
        EpisodicSampler.to_list (EpisodicSampler.Build 10 5 3) (snd (seed_everything 42 0))
        = Some (groups, EpisodicSampler.Stopped, EpisodicSampler.Finished, g')
        /\ Forall (valid_group 10 5) groups).
Proof.
  split; [lia|].
  apply (sampler_groups_valid 10 5 3 (EpisodicSampler.Build 10 5 3)
           (snd (seed_everything 42 0))); [lia|lia|reflexivity].
Defined.

(** The scenario of the specification: ten classes, five per episode, three
    episodes, seed 42, on the concrete generator. *)
Example sampler_scenario :
  EpisodicSampler.to_list (EpisodicSampler.Build 10 5 3) (snd (seed_everything 42 0))
  = Some ([[1; 2; 0; 3; 5]; [2; 5; 1; 7; 9]; [4; 2; 1; 6; 5]],
          EpisodicSampler.Stopped, EpisodicSampler.Finished,
          11397048638288055512).
Proof. vm_compute. reflexivity. Qed.

(** C6. For a sampler with [n_episode >= 0] over a number of classes that
    is not negative (the specification asks for [total_classes > 0]; a
    sampler that has no episode to run is covered too), [__len__] is
    [n_episode]; a full iteration yields exactly [n_episode] groups and ends
    in [StopIteration]; the consumed generator stays finished, and a second
    [__iter__] starts a new generator that again yields exactly [n_episode]
    groups, drawing from where the random state now stands. With
    [n_episode = 0] the sequence is empty and nothing is raised or drawn. *)
Theorem sampler_length_restartable {G} `{TorchRNG G}
    (total_classes n_classes n_episode : Z) (s : EpisodicSampler.self) (g : G) :
  0 <= n_episode ->
  0 <= total_classes \/ n_episode = 0 ->
  EpisodicSampler.__init__ total_classes n_classes n_episode = Ok s ->
  EpisodicSampler.__len__ s = n_episode
  /\ exists groups g1,
      EpisodicSampler.to_list s g
      = Some (groups, EpisodicSampler.Stopped, EpisodicSampler.Finished, g1)
      /\ len groups = n_episode
      /\ (n_episode = 0 -> groups = [] /\ g1 = g)
      /\ EpisodicSampler.next EpisodicSampler.Finished g1
         = (Raise StopIteration, EpisodicSampler.Finished, g1)
      /\ exists groups' g2,
          EpisodicSampler.to_list s g1
          = Some (groups', EpisodicSampler.Stopped, EpisodicSampler.Finished, g2)
          /\ len groups' = n_episode.
Proof.
  intros Hne Htc [= <-]. split; [reflexivity|].
  set (s := EpisodicSampler.Build total_classes n_classes n_episode).
  destruct (Z.eq_dec n_episode 0) as [E0|N0].
  - exists [], g. rewrite !to_list_no_episode by (simpl; lia).
    repeat split; auto. exists [], g. split; [reflexivity|].
    unfold len. simpl. lia.
  - assert (Hpos : 0 <= EpisodicSampler.total_classes s) by (simpl; lia).
    destruct (to_list_spec s g Hpos) as (groups & g1 & E1 & L1 & _).
    destruct (to_list_spec s g1 Hpos) as (groups' & g2 & E2 & L2 & _).
    simpl in L1, L2. exists groups, g1. repeat split; auto; try lia.
    exists groups', g2. split; [exact E2|lia].
Qed.

Lemma sampler_length_restartable_witness :
  (0 <= 3 /\ (0 <= 10 \/ 3 = 0))
  /\ EpisodicSampler.__len__ (EpisodicSampler.Build 10 5 3) = 3
  /\ exists groups g1,
      EpisodicSampler.to_list (EpisodicSampler.Build 10 5 3)
        (snd (seed_everything 42 0))
      = Some (groups, EpisodicSampler.Stopped, EpisodicSampler.Finished, g1)
      /\ len groups = 3
      /\ exists groups' g2,
          EpisodicSampler.to_list (EpisodicSampler.Build 10 5 3) g1
          = Some (groups', EpisodicSampler.Stopped, EpisodicSampler.Finished, g2)
          /\ len groups' = 3.
Proof.
  split; [lia|].
  destruct (sampler_length_restartable 10 5 3 (EpisodicSampler.Build 10 5 3)
              (snd (seed_everything 42 0)))
    as (L & groups & g1 & E1 & L1 & _ & _ & groups' & g2 & E2 & L2);
    [lia|left; lia|reflexivity|].
  split; [exact L|]. exists groups, g1. split; [exact E1|]. split; [exact L1|].
  exists groups', g2. split; [exact E2|exact L2].
Defined.

(** Seeding succeeds exactly for the seeds that [np.random.seed] takes, and
    then leaves a generator state that depends on the seed only. *)
Lemma seed_everything_ok {G} `{TorchRNG G} (seed : Z) (g : G) :
  0 <= seed < 2 ^ 32 -> seed_everything seed g = (Ok tt, manual_seed seed g).
Proof.
  intros Hs. unfold seed_everything.
  destruct (seed <? 0) eqn:E1; [apply Z.ltb_lt in E1; lia|].
  destruct (2 ^ 32 <=? seed) eqn:E2; [apply Z.leb_le in E2; lia|].
  reflexivity.
Qed.

Lemma seed_everything_rejects {G} `{TorchRNG G} (seed : Z) (g : G) :
  seed < 0 \/ 2 ^ 32 <= seed -> seed_everything seed g = (Raise ValueError, g).
Proof.
  intros Hs. unfold seed_everything.
  destruct (seed <? 0) eqn:E1; [reflexivity|]. apply Z.ltb_ge in E1.
  destruct (2 ^ 32 <=? seed) eqn:E2; [reflexivity|]. apply Z.leb_gt in E2. lia.
Qed.

(** A full iteration always comes to an end, whatever the sampler. *)
Lemma to_list_total {G} `{TorchRNG G} (s : EpisodicSampler.self) (g : G) :
  exists outcome, EpisodicSampler.to_list s g = Some outcome.
Proof.
  destruct (Z_le_gt_dec (EpisodicSampler.n_episode s) 0) as [Hne|Hne].
  - rewrite to_list_no_episode by exact Hne. eauto.
  - destruct (Z_lt_le_dec (EpisodicSampler.total_classes s) 0) as [Htc|Htc].
    + destruct (to_list_negative_total s g Htc) as (g' & ->); [lia|]. eauto.
    + destruct (to_list_spec s g Htc) as (groups & g' & -> & _). eauto.
Qed.

(** C7. Two independent runs, each seeding the generator with the same seed
    through [seed_everything] (whatever state the generator was in before),
    constructing its own sampler from the same parameters and iterating it
    to the end: both seedings succeed, both iterations come to an end, and
    they produce the same sequence of groups, end the same way and leave
    the same random state. Over a number of classes that is not negative
    the sequence has exactly [n_episode] groups, each the first [n_classes]
    entries of a permutation of the class indices, and ends in
    [StopIteration]. *)
Theorem sampler_deterministic {G} `{TorchRNG G}
    (total_classes n_classes n_episode seed : Z)
    (s1 s2 : EpisodicSampler.self) (g1 g2 : G) :
  0 <= seed < 2 ^ 32 ->
  EpisodicSampler.__init__ total_classes n_classes n_episode = Ok s1 ->
  EpisodicSampler.__init__ total_classes n_classes n_episode = Ok s2 ->
  exists seeded1 seeded2 groups ending gen final,
    seed_everything seed g1 = (Ok tt, seeded1)
    /\ seed_everything seed g2 = (Ok tt, seeded2)
    /\ EpisodicSampler.to_list s1 seeded1 = Some (groups, ending, gen, final)
    /\ EpisodicSampler.to_list s2 seeded2 = Some (groups, ending, gen, final)
    /\ (0 <= total_classes -> 0 <= n_episode ->
        len groups = n_episode
        /\ ending = EpisodicSampler.Stopped
        /\ Forall (prefix_of_permutation total_classes n_classes) groups).
Proof.
  intros Hseed [= <-] [= <-].
  set (s := EpisodicSampler.Build total_classes n_classes n_episode).
  destruct (to_list_total s (manual_seed seed g1)) as ([[[groups ending] gen] final] & E).
  exists (manual_seed seed g1), (manual_seed seed g2), groups, ending, gen, final.
  split; [now apply seed_everything_ok|]. split; [now apply seed_everything_ok|].
  split; [exact E|].
  split; [now rewrite (manual_seed_overwrites seed g2 g1)|].
  intros Htc Hne.
  destruct (to_list_spec s (manual_seed seed g1) Htc) as (groups' & g' & E' & L & F).
  rewrite E' in E. injection E as <- <- <- <-. simpl in L, F.
  split; [lia|]. split; [reflexivity|exact F].
Qed.

Lemma sampler_deterministic_witness :
  0 <= 42 < 2 ^ 32
  /\ exists groups final,
      EpisodicSampler.to_list (EpisodicSampler.Build 10 5 3)
        (snd (seed_everything 42 0))
      = Some (groups, EpisodicSampler.Stopped, EpisodicSampler.Finished, final)
      /\ EpisodicSampler.to_list (EpisodicSampler.Build 10 5 3)
           (snd (seed_everything 42 977))
         = Some (groups, EpisodicSampler.Stopped, EpisodicSampler.Finished, final)
      /\ len groups = 3.
Proof.
  split; [lia|].
  destruct (sampler_deterministic 10 5 3 42 (EpisodicSampler.Build 10 5 3)
              (EpisodicSampler.Build 10 5 3) 0 977)
    as (seeded1 & seeded2 & groups & ending & gen & final
        & S1 & S2 & E1 & E2 & Hlen);
    [lia|reflexivity|reflexivity|].
  destruct Hlen as (L & -> & _); [lia|lia|].
  exists groups, final. rewrite S1, S2. cbn [snd].
  assert (Hgen : gen = EpisodicSampler.Finished).
  { destruct (to_list_spec (EpisodicSampler.Build 10 5 3) seeded1)
      as (groups' & g' & E' & _); [simpl; lia|].
    rewrite E' in E1. now injection E1. }
  subst gen. split; [exact E1|]. split; [exact E2|exact L].
Defined.

(** Seeding outside the range that numpy takes raises before the torch
    generator is touched. *)
Example seed_everything_out_of_range :
  seed_everything (2 ^ 32) 977 = (Raise ValueError, 977)
  /\ seed_everything (-1) 977 = (Raise ValueError, 977).
Proof. split; reflexivity. Qed.

(** C8, as the code has it. Constructing a sampler never fails: the three
    parameters are stored unchecked. With no episode to run ([n_episode <= 0],
    negative included) iteration yields the empty sequence. Over a
    non-negative [total_classes] it yields [n_episode] groups, each the prefix
    [[:n_classes]] of a permutation of [range total_classes]; when
    [n_classes >= total_classes] that is the whole permutation, a group of
    [total_classes] entries. Over a negative [total_classes] the error comes
    at the first [next], from [randperm], not from the constructor. *)
Theorem sampler_init_unchecked {G} `{TorchRNG G}
    (total_classes n_classes n_episode : Z) :
  exists s,
    EpisodicSampler.__init__ total_classes n_classes n_episode = Ok s
    /\ s = EpisodicSampler.Build total_classes n_classes n_episode
    /\ forall g : G,
        (n_episode <= 0 ->
         EpisodicSampler.to_list s g
         = Some ([], EpisodicSampler.Stopped, EpisodicSampler.Finished, g))
        /\ (0 <= total_classes -> 0 < n_episode ->
            exists groups g',
              EpisodicSampler.to_list s g
              = Some (groups, EpisodicSampler.Stopped, EpisodicSampler.Finished, g')
              /\ len groups = n_episode
              /\ Forall (fun group =>
                           len group = clamp n_classes total_classes
                           /\ NoDup group
                           /\ Forall (fun i => 0 <= i < total_classes) group
                           /\ (total_classes <= n_classes ->
                               len group = total_classes
                               /\ Permutation group (range total_classes)))
                        groups)
        /\ (total_classes < 0 -> 0 < n_episode ->
            exists g',
              EpisodicSampler.to_list s g
              = Some ([], EpisodicSampler.Failed RuntimeError,
                      EpisodicSampler.Finished, g')).
Proof.
  eexists. split; [reflexivity|]. split; [reflexivity|]. intros g.
  set (s := EpisodicSampler.Build total_classes n_classes n_episode).
  split; [|split].
  - intros Hne. now apply to_list_no_episode.
  - intros Htc Hne. destruct (to_list_spec s g Htc) as (groups & g' & E & L & F).
    simpl in L, F. exists groups, g'. split; [exact E|]. split; [lia|].
    eapply Forall_impl; [|exact F]. intros group P. repeat split.
    + now apply prefix_of_permutation_len.
    + eapply prefix_of_permutation_NoDup, P.
    + eapply prefix_of_permutation_bounds, P.
    + rewrite (prefix_of_permutation_len total_classes n_classes) by auto.
      apply clamp_above. lia.
    + destruct P as (p & P & ->). rewrite slice_to_all; [exact P|].
      unfold len. rewrite (Permutation_length P), range_length. lia.
  - intros Htc Hne. now apply to_list_negative_total.
Qed.

(** C8 as stated fails: [EpisodicSampler(3, 5, 2)] asks for more classes than
    there are; it is constructed, and it yields two groups, of three entries
    each. *)
Lemma sampler_init_counterexample :
  EpisodicSampler.__init__ 3 5 2 = Ok (EpisodicSampler.Build 3 5 2)
  /\ EpisodicSampler.to_list (EpisodicSampler.Build 3 5 2) (snd (seed_everything 7 0))
     = Some ([[2; 0; 1]; [0; 1; 2]],
             EpisodicSampler.Stopped, EpisodicSampler.Finished,
             2553420073753464661).
Proof. split; [reflexivity|vm_compute; reflexivity]. Qed.

(** ** Indexing *)

(** [t[i][j]] (for a tensor, [t[i, j]]) *)
Definition getitem2 {A} (t : list (list A)) (i j : Z) : result A :=
  bind (getitem t i) (fun row => getitem row j).

Lemma getitem_nonneg {A} (l : list A) (i : Z) :
  0 <= i ->
  getitem l i
  = if len l <=? i then Raise IndexError
    else match nth_error l (Z.to_nat i) with
         | Some a => Ok a
         | None => Raise IndexError
         end.
Proof.
  intros Hi. unfold getitem.
  assert (E : (i <? 0) = false) by (apply Z.ltb_ge; lia).
  rewrite E. cbv zeta. rewrite E. reflexivity.
Qed.

Lemma getitem_nth {A} (l : list A) (i : Z) (a : A) :
  0 <= i -> nth_error l (Z.to_nat i) = Some a -> getitem l i = Ok a.
Proof.
  intros Hi E. rewrite getitem_nonneg by exact Hi.
  assert (Hlt : (Z.to_nat i < List.length l)%nat)
    by (apply nth_error_Some; congruence).
  destruct (len l <=? i) eqn:Hi2.
  - apply Z.leb_le in Hi2. unfold len in Hi2. lia.
  - now rewrite E.
Qed.

Lemma getitem_inv {A} (l : list A) (i : Z) (a : A) :
  0 <= i -> getitem l i = Ok a ->
  nth_error l (Z.to_nat i) = Some a /\ i < len l.
Proof.
  intros Hi. rewrite getitem_nonneg by exact Hi.
  destruct (len l <=? i) eqn:Hi2; [discriminate|]. apply Z.leb_gt in Hi2.
  destruct (nth_error l (Z.to_nat i)); [|discriminate].
  intros [= ->]. auto.
Qed.

Lemma getitem_total {A} (l : list A) (i : Z) :
  0 <= i < len l -> exists a, getitem l i = Ok a.
Proof.
  intros Hi. unfold len in Hi.
  destruct (nth_error l (Z.to_nat i)) as [a|] eqn:E.
  - exists a. apply getitem_nth; [lia|exact E].
  - apply nth_error_None in E. lia.
Qed.

Lemma getitem_map {A B} (f : A -> B) (l : list A) (i : Z) (a : A) :
  0 <= i -> getitem l i = Ok a -> getitem (map f l) i = Ok (f a).
Proof.
  intros Hi E. apply getitem_inv in E as [E _]; [|exact Hi].
  apply getitem_nth; [exact Hi|]. rewrite nth_error_map, E. reflexivity.
Qed.

Lemma getitem_range (n i : Z) : 0 <= i < n -> getitem (range n) i = Ok i.
Proof.
  intros Hi. apply getitem_nth; [lia|]. unfold range.
  rewrite nth_error_map, nth_error_seq.
  destruct (Nat.ltb_spec (Z.to_nat i) (Z.to_nat n)); [|lia].
  simpl. f_equal. lia.
Qed.

Lemma getitem_repeat {A} (x : A) (k : nat) (j : Z) :
  0 <= j < Z.of_nat k -> getitem (List.repeat x k) j = Ok x.
Proof.
  intros Hj. apply getitem_nth; [lia|].
  apply nth_error_repeat. lia.
Qed.

Lemma getitem_slice_to {A} (k : Z) (l : list A) (j : Z) :
  0 <= j < k -> getitem (slice_to k l) j = getitem l j.
Proof.
  intros Hj. pose proof (len_nonneg l) as Hl.
  rewrite !getitem_nonneg by lia. rewrite len_slice_to.
  assert (Hc : clamp k (len l) = Z.min k (len l)).
  { unfold clamp. destruct (k <? 0) eqn:E; [apply Z.ltb_lt in E; lia|reflexivity]. }
  rewrite Hc.
  destruct (len l <=? j) eqn:E1; [apply Z.leb_le in E1|apply Z.leb_gt in E1].
  - destruct (Z.min k (len l) <=? j) eqn:E2; [reflexivity|].
    apply Z.leb_gt in E2. lia.
  - destruct (Z.min k (len l) <=? j) eqn:E2; [apply Z.leb_le in E2; lia|].
    unfold slice_to. rewrite Hc, nth_error_firstn.
    destruct (Nat.ltb_spec (Z.to_nat j) (Z.to_nat (Z.min k (len l)))); [reflexivity|lia].
Qed.

Lemma len_slice_from {A} (k : Z) (l : list A) :
  0 <= k <= len l -> len (slice_from k l) = len l - k.
Proof.
  intros Hk. unfold slice_from, len at 1.
  rewrite length_skipn, clamp_inside by lia. unfold len in *. lia.
Qed.

Lemma getitem_slice_from {A} (k : Z) (l : list A) (j : Z) :
  0 <= k <= len l -> 0 <= j -> getitem (slice_from k l) j = getitem l (k + j).
Proof.
  intros Hk Hj. rewrite !getitem_nonneg by lia. rewrite len_slice_from by lia.
  destruct (len l - k <=? j) eqn:E1; [apply Z.leb_le in E1|apply Z.leb_gt in E1].
  - destruct (len l <=? k + j) eqn:E2; [reflexivity|apply Z.leb_gt in E2; lia].
  - destruct (len l <=? k + j) eqn:E2; [apply Z.leb_le in E2; lia|].
    unfold slice_from. rewrite clamp_inside, nth_error_skipn by lia.
    replace (Z.to_nat k + Z.to_nat j)%nat with (Z.to_nat (k + j)) by lia.
    reflexivity.
Qed.

(** An entry of a tensor with rows of [k] entries, after its two leading
    axes were merged. *)
Lemma nth_error_concat_uniform {A} (k : nat) (ll : list (list A)) :
  Forall (fun row => List.length row = k) ll ->
  forall (i j : nat) (row : list A),
    nth_error ll i = Some row -> (j < k)%nat ->
    nth_error (List.concat ll) (i * k + j) = nth_error row j.
Proof.
  induction 1 as [|r ll Hr Hll IH]; intros i j row Hi Hj.
  - destruct i; discriminate.
  - destruct i as [|i]; simpl in *.
    + injection Hi as ->. apply nth_error_app1. lia.
    + rewrite nth_error_app2 by lia.
      replace (k + i * k + j - List.length r)%nat with (i * k + j)%nat by lia.
      now apply IH.
Qed.

Lemma getitem_concat_uniform {A} (k : Z) (ll : list (list A)) (i j : Z) (row : list A) :
  Forall (fun row => len row = k) ll ->
  0 <= i -> 0 <= j < k ->
  getitem ll i = Ok row ->
  getitem (List.concat ll) (i * k + j) = getitem row j.
Proof.
  intros Hll Hi Hj E. apply getitem_inv in E as [E Hlt]; [|exact Hi].
  assert (Hrow : len row = k).
  { rewrite Forall_forall in Hll. apply Hll. eapply nth_error_In, E. }
  destruct (getitem_total row j) as (x & Ex); [lia|]. rewrite Ex.
  apply getitem_inv in Ex as [Ex _]; [|lia].
  apply getitem_nth; [nia|].
  replace (Z.to_nat (i * k + j)) with (Z.to_nat i * Z.to_nat k + Z.to_nat j)%nat by nia.
  rewrite (nth_error_concat_uniform (Z.to_nat k) ll) with (row := row); auto.
  - eapply Forall_impl; [|exact Hll]. unfold len. intros r Hr. simpl in Hr. lia.
  - lia.
Qed.

(** ** The support / query split *)

Lemma slice_to_firstn {A} (k : Z) (l : list A) :
  0 <= k <= len l -> slice_to k l = firstn (Z.to_nat k) l.
Proof. intros Hk. unfold slice_to. now rewrite clamp_inside. Qed.

Lemma slice_from_skipn {A} (k : Z) (l : list A) :
  0 <= k <= len l -> slice_from k l = skipn (Z.to_nat k) l.
Proof. intros Hk. unfold slice_from. now rewrite clamp_inside. Qed.

Lemma concat_repeat_singleton {A} (x : A) (n : nat) :
  List.concat (List.repeat [x] n) = List.repeat x n.
Proof. induction n as [|n IH]; simpl; [reflexivity|now rewrite IH]. Qed.

Lemma torch_repeat_ok (i k : Z) :
  0 <= k -> torch.repeat [i] k = Ok (List.repeat i (Z.to_nat k)).
Proof.
  intros Hk. unfold torch.repeat.
  destruct (k <? 0) eqn:E; [apply Z.ltb_lt in E; lia|].
  now rewrite concat_repeat_singleton.
Qed.

Lemma for_each_repeat (k : Z) (l : list Z) :
  0 <= k ->
  for_each (fun i => torch.repeat [i] k) l
  = Ok (map (fun i => List.repeat i (Z.to_nat k)) l).
Proof.
  intros Hk. induction l as [|i l IH]; simpl; [reflexivity|].
  rewrite torch_repeat_ok by exact Hk. simpl. now rewrite IH.
Qed.

Lemma stack_uniform {A} (k : Z) (rows : list (list A)) :
  rows <> [] -> Forall (fun row => len row = k) rows -> torch.stack rows = Ok rows.
Proof.
  intros Hne Hrows. destruct rows as [|r rest]; [contradiction|].
  unfold torch.stack. inversion Hrows as [|? ? Hr Hrest]; subst.
  replace (forallb (fun r' => len r' =? len r) rest) with true; [reflexivity|].
  symmetry. apply forallb_forall. intros r' Hin.
  rewrite Forall_forall in Hrest. apply Z.eqb_eq. now apply Hrest.
Qed.

Lemma label_rows_uniform (k : Z) (l : list Z) :
  0 <= k ->
  Forall (fun row => len row = k) (map (fun i => List.repeat i (Z.to_nat k)) l).
Proof.
  intros Hk. apply Forall_forall. intros row Hin.
  apply in_map_iff in Hin as (i & <- & _).
  unfold len. rewrite repeat_length. lia.
Qed.

Lemma range_nonempty (n : Z) : 0 < n -> range n <> [].
Proof.
  intros Hn E. apply (f_equal (@List.length Z)) in E.
  rewrite range_length in E. simpl in E. lia.
Qed.

Section SplitFacts.

Context {X : Type}.
Variable a : args.
Variable SQ_x : list (list X).
Variable SQ_y : list (list Z).

(** What the class-as-task split returns for an episode of at least one
    class. *)
Lemma class_is_task_eq :
  0 <= k_shot a -> 0 <= k_eval a -> 0 < n_classes a ->
  get_support_query_batch_of_tasks_class_is_task_M_eq_N a SQ_x SQ_y
  = Ok (map (slice_to (k_shot a)) SQ_x,
        map (fun i => List.repeat i (Z.to_nat (k_shot a))) (range (n_classes a)),
        map (slice_from (k_shot a)) SQ_x,
        map (fun i => List.repeat i (Z.to_nat (k_eval a))) (range (n_classes a))).
Proof.
  intros Hs He Hn. unfold get_support_query_batch_of_tasks_class_is_task_M_eq_N.
  assert (Hmap : forall k, map (fun i => List.repeat i (Z.to_nat k)) (range (n_classes a)) <> []).
  { intros k E. apply map_eq_nil in E. now apply (range_nonempty _ Hn). }
  rewrite !for_each_repeat by assumption. cbn [bind].
  rewrite (stack_uniform (k_shot a)); [|apply Hmap|now apply label_rows_uniform].
  cbn [bind].
  rewrite (stack_uniform (k_eval a)); [|apply Hmap|now apply label_rows_uniform].
  reflexivity.
Qed.

(** What the dataset-as-task split returns. *)
Lemma data_set_is_task_eq :
  0 <= k_shot a -> 0 <= k_eval a ->
  get_support_query_set_for_data_set_is_task a SQ_x SQ_y
  = Ok (List.concat (map (slice_to (k_shot a)) SQ_x),
        flat_map (fun i => List.repeat i (Z.to_nat (k_shot a))) (range (n_classes a)),
        List.concat (map (slice_from (k_shot a)) SQ_x),
        flat_map (fun i => List.repeat i (Z.to_nat (k_eval a))) (range (n_classes a))).
Proof.
  intros Hs He. unfold get_support_query_set_for_data_set_is_task, np.repeat.
  destruct (k_shot a <? 0) eqn:E1; [apply Z.ltb_lt in E1; lia|].
  destruct (k_eval a <? 0) eqn:E2; [apply Z.ltb_lt in E2; lia|].
  reflexivity.
Qed.

End SplitFacts.

Lemma length_concat_uniform {A} (m : nat) (ll : list (list A)) :
  Forall (fun row => List.length row = m) ll ->
  List.length (List.concat ll) = (List.length ll * m)%nat.
Proof.
  induction 1 as [|r ll Hr _ IH]; simpl; [reflexivity|].
  rewrite length_app, IH, Hr. reflexivity.
Qed.

Lemma len_concat_uniform {A} (m : Z) (ll : list (list A)) :
  Forall (fun row => len row = m) ll -> len (List.concat ll) = len ll * m.
Proof.
  intros Hll. destruct ll as [|r ll']; [reflexivity|].
  assert (Hm : 0 <= m).
  { inversion Hll; subst. apply len_nonneg. }
  unfold len. rewrite (length_concat_uniform (Z.to_nat m)).
  - lia.
  - eapply Forall_impl; [|exact Hll]. unfold len. intros row Hrow. simpl in Hrow. lia.
Qed.

Lemma concat_split_perm {A} (k : nat) (ll : list (list A)) :
  Permutation (List.concat ll)
    (List.concat (map (firstn k) ll) ++ List.concat (map (skipn k) ll)).
Proof.
  induction ll as [|r ll IH]; simpl; [reflexivity|].
  rewrite <- (firstn_skipn k r) at 1. rewrite IH, <- !app_assoc.
  apply Permutation_app_head, Permutation_app_swap_app.
Qed.

Lemma support_rows_uniform {X} (ks ke : Z) (SQ_x : list (list X)) :
  0 <= ks -> 0 <= ke ->
  Forall (fun row => len row = ks + ke) SQ_x ->
  Forall (fun row => len row = ks) (map (slice_to ks) SQ_x).
Proof.
  intros Hs He Hrows. apply Forall_map. eapply Forall_impl; [|exact Hrows].
  intros row Hrow. simpl in *. rewrite len_slice_to. apply clamp_inside. lia.
Qed.

Lemma query_rows_uniform {X} (ks ke : Z) (SQ_x : list (list X)) :
  0 <= ks -> 0 <= ke ->
  Forall (fun row => len row = ks + ke) SQ_x ->
  Forall (fun row => len row = ke) (map (slice_from ks) SQ_x).
Proof.
  intros Hs He Hrows. apply Forall_map. eapply Forall_impl; [|exact Hrows].
  intros row Hrow. simpl in *. rewrite len_slice_from; lia.
Qed.

Lemma getitem_Forall {A} (P : A -> Prop) (l : list A) (i : Z) (x : A) :
  Forall P l -> 0 <= i -> getitem l i = Ok x -> P x.
Proof.
  intros Hl Hi E. apply getitem_inv in E as [E _]; [|exact Hi].
  rewrite Forall_forall in Hl. eapply Hl, nth_error_In, E.
Qed.

(** The label rows: row [i] of the stacked labels, and block [i] of the
    flattened ones, hold [i] throughout. *)
Lemma getitem2_label_rows (n k i j : Z) :
  0 <= i < n -> 0 <= j < k ->
  getitem2 (map (fun c => List.repeat c (Z.to_nat k)) (range n)) i j = Ok i.
Proof.
  intros Hi Hj. unfold getitem2.
  rewrite (getitem_map _ _ i i) by (try apply getitem_range; lia).
  cbn [bind]. apply getitem_repeat. lia.
Qed.

Lemma getitem_label_blocks (n k i j : Z) :
  0 <= i < n -> 0 <= j < k ->
  getitem (flat_map (fun c => List.repeat c (Z.to_nat k)) (range n)) (i * k + j)
  = Ok i.
Proof.
  intros Hi Hj. rewrite flat_map_concat_map.
  rewrite (getitem_concat_uniform k _ i j (List.repeat i (Z.to_nat k))).
  - apply getitem_repeat. lia.
  - apply label_rows_uniform. lia.
  - lia.
  - exact Hj.
  - apply (getitem_map (fun c => List.repeat c (Z.to_nat k))); [lia|].
    now apply getitem_range.
Qed.

(** C4. In an episode batch of [n_classes] rows of [k_shot + k_eval]
    examples, take the [i]-th selected class. Under both aggregation
    policies the split succeeds, every example in the class's support slice
    and in its query slice is an example of that class's row (the [j]-th
    support example is example [j] of the row, the [j]-th query example is
    example [k_shot + j]), and the label stored at the same position is the
    class's label in the episode, [i]: row [i] of the label tensors under
    class-as-task, block [i] of the flattened label vectors under
    dataset-as-task. *)
Theorem split_labels_aligned {X} (a : args)
    (SQ_x : list (list X)) (SQ_y : list (list Z)) (i : Z) :
  0 <= k_shot a -> 0 <= k_eval a ->
  len SQ_x = n_classes a ->
  Forall (fun row => len row = k_shot a + k_eval a) SQ_x ->
  0 <= i < n_classes a ->
  exists row,
    getitem SQ_x i = Ok row
    /\ (exists S_x S_y Q_x Q_y,
          get_support_query_batch_of_tasks_class_is_task_M_eq_N a SQ_x SQ_y
          = Ok (S_x, S_y, Q_x, Q_y)
          /\ (forall j, 0 <= j < k_shot a ->
                exists x, getitem row j = Ok x
                          /\ getitem2 S_x i j = Ok x
                          /\ getitem2 S_y i j = Ok i)
          /\ (forall j, 0 <= j < k_eval a ->
                exists x, getitem row (k_shot a + j) = Ok x
                          /\ getitem2 Q_x i j = Ok x
                          /\ getitem2 Q_y i j = Ok i))
    /\ (exists S_x S_y Q_x Q_y,
          get_support_query_set_for_data_set_is_task a SQ_x SQ_y
          = Ok (S_x, S_y, Q_x, Q_y)
          /\ (forall j, 0 <= j < k_shot a ->
                exists x, getitem row j = Ok x
                          /\ getitem S_x (i * k_shot a + j) = Ok x
                          /\ getitem S_y (i * k_shot a + j) = Ok i)
          /\ (forall j, 0 <= j < k_eval a ->
                exists x, getitem row (k_shot a + j) = Ok x
                          /\ getitem Q_x (i * k_eval a + j) = Ok x
                          /\ getitem Q_y (i * k_eval a + j) = Ok i)).
Proof.
  intros Hs He Hlen Hrows Hi.
  destruct (getitem_total SQ_x i) as (row & Erow); [lia|].
  assert (Hrow : len row = k_shot a + k_eval a).
  { apply (getitem_Forall _ SQ_x i row Hrows); [lia|exact Erow]. }
  exists row. split; [exact Erow|]. split.
  - do 4 eexists. split; [apply class_is_task_eq; lia|]. split.
    + intros j Hj. destruct (getitem_total row j) as (x & Ex); [lia|].
      exists x. split; [exact Ex|]. split.
      * unfold getitem2.
        rewrite (getitem_map (slice_to (k_shot a)) SQ_x i row) by (auto; lia).
        cbn [bind]. now rewrite getitem_slice_to.
      * now apply getitem2_label_rows.
    + intros j Hj. destruct (getitem_total row (k_shot a + j)) as (x & Ex); [lia|].
      exists x. split; [exact Ex|]. split.
      * unfold getitem2.
        rewrite (getitem_map (slice_from (k_shot a)) SQ_x i row) by (auto; lia).
        cbn [bind]. rewrite getitem_slice_from by lia. exact Ex.
      * now apply getitem2_label_rows.
  - do 4 eexists. split; [apply data_set_is_task_eq; lia|]. split.
    + intros j Hj. destruct (getitem_total row j) as (x & Ex); [lia|].
      exists x. split; [exact Ex|]. split.
      * rewrite (getitem_concat_uniform (k_shot a) _ i j (slice_to (k_shot a) row)).
        -- now rewrite getitem_slice_to.
        -- now apply (support_rows_uniform _ (k_eval a)).
        -- lia.
        -- exact Hj.
        -- apply (getitem_map (slice_to (k_shot a))); [lia|exact Erow].
      * now apply getitem_label_blocks.
    + intros j Hj. destruct (getitem_total row (k_shot a + j)) as (x & Ex); [lia|].
      exists x. split; [exact Ex|]. split.
      * rewrite (getitem_concat_uniform (k_eval a) _ i j (slice_from (k_shot a) row)).
        -- rewrite getitem_slice_from by lia. exact Ex.
        -- now apply (query_rows_uniform (k_shot a)).
        -- lia.
        -- exact Hj.
        -- apply (getitem_map (slice_from (k_shot a))); [lia|exact Erow].
      * now apply getitem_label_blocks.
Qed.

(** A small episode: two classes, one support and two query examples each.
    The incoming labels [SQ_y] are the classes' labels in the meta-dataset. *)
Definition demo_args : args := Build_args 2 1 2.
Definition demo_SQ_x : list (list string) :=
  [["a"; "b"; "c"]; ["d"; "e"; "f"]]%string.
Definition demo_SQ_y : list (list Z) := [[7; 7; 7]; [9; 9; 9]].

Lemma split_labels_aligned_witness :
  (0 <= k_shot demo_args /\ 0 <= k_eval demo_args /\ 0 <= 1 < n_classes demo_args)
  /\ exists row,
      getitem demo_SQ_x 1 = Ok row
      /\ exists S_x S_y Q_x Q_y,
          get_support_query_set_for_data_set_is_task demo_args demo_SQ_x demo_SQ_y
          = Ok (S_x, S_y, Q_x, Q_y)
          /\ getitem S_x (1 * k_shot demo_args + 0) = getitem row 0
          /\ getitem S_y (1 * k_shot demo_args + 0) = Ok 1.
Proof.
  split; [simpl; lia|].
  destruct (split_labels_aligned demo_args demo_SQ_x demo_SQ_y 1)
    as (row & Erow & _ & (S_x & S_y & Q_x & Q_y & E & HS & _));
    [simpl; lia|simpl; lia|reflexivity|repeat constructor|simpl; lia|].
  exists row. split; [exact Erow|]. exists S_x, S_y, Q_x, Q_y.
  split; [exact E|].
  destruct (HS 0) as (x & E1 & E2 & E3); [simpl; lia|].
  split; [congruence|exact E3].
Defined.

(** Both splits on the small episode. The labels they return are the
    positions [0] and [1] of the classes in the episode; [SQ_y] is not
    read. *)
Example split_demo :
  get_support_query_batch_of_tasks_class_is_task_M_eq_N demo_args demo_SQ_x demo_SQ_y
  = Ok ([["a"]; ["d"]], [[0]; [1]], [["b"; "c"]; ["e"; "f"]], [[0; 0]; [1; 1]])%string
  /\ get_support_query_set_for_data_set_is_task demo_args demo_SQ_x demo_SQ_y
     = Ok (["a"; "d"], [0; 1], ["b"; "c"; "e"; "f"], [0; 0; 1; 1])%string.
Proof. split; reflexivity. Qed.

(** C5. For an episode batch of [n_classes] rows of [k_shot + k_eval]
    examples, the split takes from every row its first [k_shot] examples as
    support and the remaining [k_eval] as query. Under dataset-as-task the
    flattened support set has [n_classes * k_shot] elements and the flattened
    query set [n_classes * k_eval], as have their label vectors, and the
    support set followed by the query set is a rearrangement of all the input
    examples: each lands in exactly one of the two. Under class-as-task the
    same slices are returned row by row: every row is its support slice
    followed by its query slice, and the slices add up to the same two
    sizes. *)
Theorem split_sizes_and_partition {X} (a : args)
    (SQ_x : list (list X)) (SQ_y : list (list Z)) :
  0 <= k_shot a -> 0 <= k_eval a ->
  len SQ_x = n_classes a ->
  Forall (fun row => len row = k_shot a + k_eval a) SQ_x ->
  (exists S_x S_y Q_x Q_y,
      get_support_query_set_for_data_set_is_task a SQ_x SQ_y
      = Ok (S_x, S_y, Q_x, Q_y)
      /\ S_x = List.concat (map (firstn (Z.to_nat (k_shot a))) SQ_x)
      /\ Q_x = List.concat (map (skipn (Z.to_nat (k_shot a))) SQ_x)
      /\ len S_x = n_classes a * k_shot a
      /\ len Q_x = n_classes a * k_eval a
      /\ len S_y = n_classes a * k_shot a
      /\ len Q_y = n_classes a * k_eval a
      /\ Permutation (List.concat SQ_x) (S_x ++ Q_x))
  /\ (forall i row,
        0 <= i -> getitem SQ_x i = Ok row ->
        exists S_x S_y Q_x Q_y,
          get_support_query_batch_of_tasks_class_is_task_M_eq_N a SQ_x SQ_y
          = Ok (S_x, S_y, Q_x, Q_y)
          /\ getitem S_x i = Ok (firstn (Z.to_nat (k_shot a)) row)
          /\ getitem Q_x i = Ok (skipn (Z.to_nat (k_shot a)) row)
          /\ len (firstn (Z.to_nat (k_shot a)) row) = k_shot a
          /\ len (skipn (Z.to_nat (k_shot a)) row) = k_eval a
          /\ row = firstn (Z.to_nat (k_shot a)) row ++ skipn (Z.to_nat (k_shot a)) row
          /\ len (List.concat S_x) = n_classes a * k_shot a
          /\ len (List.concat Q_x) = n_classes a * k_eval a).
Proof.
  intros Hs He Hlen Hrows.
  assert (ES : map (slice_to (k_shot a)) SQ_x
               = map (firstn (Z.to_nat (k_shot a))) SQ_x).
  { apply map_ext_in. intros row Hin. rewrite Forall_forall in Hrows.
    apply slice_to_firstn. rewrite (Hrows row Hin). lia. }
  assert (EQ : map (slice_from (k_shot a)) SQ_x
               = map (skipn (Z.to_nat (k_shot a))) SQ_x).
  { apply map_ext_in. intros row Hin. rewrite Forall_forall in Hrows.
    apply slice_from_skipn. rewrite (Hrows row Hin). lia. }
  pose proof (support_rows_uniform _ _ _ Hs He Hrows) as US.
  pose proof (query_rows_uniform _ _ _ Hs He Hrows) as UQ.
  assert (LS : len (List.concat (map (slice_to (k_shot a)) SQ_x))
               = n_classes a * k_shot a).
  { rewrite (len_concat_uniform _ _ US). unfold len. rewrite length_map.
    fold (len SQ_x). now rewrite Hlen. }
  assert (LQ : len (List.concat (map (slice_from (k_shot a)) SQ_x))
               = n_classes a * k_eval a).
  { rewrite (len_concat_uniform _ _ UQ). unfold len. rewrite length_map.
    fold (len SQ_x). now rewrite Hlen. }
  assert (Hn : 0 <= n_classes a) by (rewrite <- Hlen; apply len_nonneg).
  assert (LY : forall k, 0 <= k ->
             len (flat_map (fun c => List.repeat c (Z.to_nat k)) (range (n_classes a)))
             = n_classes a * k).
  { intros k Hk. rewrite flat_map_concat_map.
    rewrite (len_concat_uniform k) by now apply label_rows_uniform.
    unfold len. rewrite length_map. fold (len (range (n_classes a))).
    now rewrite len_range. }
  split.
  - do 4 eexists. split; [apply data_set_is_task_eq; assumption|].
    rewrite <- ES, <- EQ. repeat split; auto.
    rewrite ES, EQ. apply concat_split_perm.
  - intros i row Hi Erow.
    assert (Hrow : len row = k_shot a + k_eval a)
      by (apply (getitem_Forall _ SQ_x i row Hrows); assumption).
    assert (Hpos : 0 < n_classes a).
    { apply getitem_inv in Erow as [_ Hlt]; lia. }
    do 4 eexists. split; [apply class_is_task_eq; assumption|].
    rewrite <- slice_to_firstn, <- slice_from_skipn by lia.
    repeat split; auto.
    + now apply getitem_map.
    + now apply getitem_map.
    + rewrite len_slice_to. apply clamp_inside. lia.
    + rewrite len_slice_from; lia.
    + symmetry. apply slice_to_from.
Qed.

Lemma split_sizes_and_partition_witness :
  (0 <= k_shot demo_args /\ 0 <= k_eval demo_args /\ len demo_SQ_x = n_classes demo_args)
  /\ exists S_x S_y Q_x Q_y,
      get_support_query_set_for_data_set_is_task demo_args demo_SQ_x demo_SQ_y
      = Ok (S_x, S_y, Q_x, Q_y)
      /\ len S_x = n_classes demo_args * k_shot demo_args
      /\ len Q_x = n_classes demo_args * k_eval demo_args
      /\ Permutation (List.concat demo_SQ_x) (S_x ++ Q_x).
Proof.
  split; [repeat split; simpl; lia|].
  destruct (split_sizes_and_partition demo_args demo_SQ_x demo_SQ_y)
    as ((S_x & S_y & Q_x & Q_y & E & _ & _ & LS & LQ & _ & _ & P) & _);
    [simpl; lia|simpl; lia|reflexivity|repeat constructor|].
  exists S_x, S_y, Q_x, Q_y. auto.
Defined.

(** ** The meta-dataset *)

Lemma nth_error_enumerate_from {A} (l : list A) :
  forall (start : Z) (j : nat) (idx : Z) (x : A),
    nth_error (enumerate_from start l) j = Some (idx, x) <->
    nth_error l j = Some x /\ idx = start + Z.of_nat j.
Proof.
  induction l as [|y l IH]; intros start j idx x.
  - destruct j; simpl; split; try discriminate; intros [? _]; discriminate.
  - destruct j as [|j]; simpl.
    + split.
      * intros [= <- <-]. split; [reflexivity|lia].
      * intros [[= ->] ->]. do 2 f_equal. lia.
    + rewrite IH. split; intros [E ->]; (split; [exact E|lia]).
Qed.

Lemma length_enumerate_from {A} (l : list A) (start : Z) :
  List.length (enumerate_from start l) = List.length l.
Proof.
  revert start. induction l as [|y l IH]; intros start; simpl; [reflexivity|].
  now rewrite IH.
Qed.

Section MetaSet.

Context {Image Tensor : Type} `{FileSystem Image}.

(** The glob pattern of a class directory: what [__init__] hands to
    [ClassDataset] as [images]. *)
Definition pattern_of (root label : string) : string :=
  os_path.join root [label; "*"%string].

(** The loaders that the second loop of [__init__] adds, the list of
    patterns being indexed by the loop counter. *)
Definition loader_built (paths : list ClassDataset.sequence)
    (k_shot k_eval : Z) (transform : option (Image -> Tensor))
    (entry : Z * string) (loader : DataLoader.self Image Tensor) : Prop :=
  getitem paths (fst entry) = Ok (ClassDataset.images (DataLoader.dataset loader))
  /\ ClassDataset.label (DataLoader.dataset loader) = fst entry
  /\ ClassDataset.transform (DataLoader.dataset loader) = transform
  /\ DataLoader.batch_size loader = k_shot + k_eval
  /\ 0 < k_shot + k_eval.

Lemma DataLoader_init_inv (dataset : ClassDataset.self Image Tensor) (batch_size : Z)
    (loader : DataLoader.self Image Tensor) :
  DataLoader.__init__ dataset batch_size = Ok loader ->
  loader = DataLoader.Build dataset batch_size
  /\ 0 < batch_size /\ 0 < ClassDataset.__len__ dataset.
Proof.
  unfold DataLoader.__init__.
  destruct (batch_size <=? 0) eqn:E1; [discriminate|].
  destruct (ClassDataset.__len__ dataset <=? 0) eqn:E2; [discriminate|].
  apply Z.leb_gt in E1, E2. intros [= <-]. auto.
Qed.

Lemma build_loaders_inv (paths : list ClassDataset.sequence)
    (k_shot k_eval : Z) (transform : option (Image -> Tensor))
    (todo : list (Z * string)) :
  forall episode_loader loaders,
    MetaSet_Dataset.build_loaders todo paths k_shot k_eval transform episode_loader
    = Ok loaders ->
    exists added,
      loaders = episode_loader ++ added
      /\ Forall2 (loader_built paths k_shot k_eval transform) todo added.
Proof.
  induction todo as [|[idx name] todo IH]; intros acc loaders; simpl.
  - intros [= <-]. exists []. rewrite app_nil_r. split; constructor.
  - destruct (getitem paths idx) as [path_to_task_imgs|] eqn:Epath; [|discriminate].
    cbn [bind].
    destruct (DataLoader.__init__ _ (k_shot + k_eval)) as [loader|] eqn:Eload;
      [|discriminate].
    cbn [bind]. intros Erest.
    apply DataLoader_init_inv in Eload as (-> & Hpos & _).
    destruct (IH _ _ Erest) as (added & -> & F).
    eexists (_ :: added). rewrite <- app_assoc. split; [reflexivity|].
    constructor; [|exact F]. repeat split; auto.
Qed.

(** What a successful construction has built. *)
Lemma init_inv (root phase : string) (k_shot k_eval : Z)
    (transform : option (Image -> Tensor)) (ms : MetaSet_Dataset.self Image Tensor) :
  MetaSet_Dataset.__init__ root phase k_shot k_eval transform = Ok ms ->
  exists entries,
    listdir (os_path.join root [phase]) = Ok entries
    /\ MetaSet_Dataset.labels ms = sorted entries
    /\ Forall2 (loader_built
                  (MetaSet_Dataset.meta_set_as_paths (os_path.join root [phase])
                                                     (sorted entries))
                  k_shot k_eval transform)
               (enumerate (sorted entries))
               (MetaSet_Dataset.episode_loader ms).
Proof.
  unfold MetaSet_Dataset.__init__.
  destruct (listdir (os_path.join root [phase])) as [entries|]; [|discriminate].
  cbn [bind].
  destruct (MetaSet_Dataset.build_loaders _ _ _ _ _ _) as [loaders|] eqn:B;
    [|discriminate].
  cbn [bind]. intros [= <-].
  apply build_loaders_inv in B as (added & -> & F).
  exists entries. simpl. auto.
Qed.

(** The loader of class [idx] in a constructed meta-dataset. *)
Lemma init_loader (root phase : string) (k_shot k_eval : Z)
    (transform : option (Image -> Tensor)) (ms : MetaSet_Dataset.self Image Tensor)
    (idx : Z) :
  MetaSet_Dataset.__init__ root phase k_shot k_eval transform = Ok ms ->
  0 <= idx < MetaSet_Dataset.__len__ ms ->
  exists name loader,
    getitem (MetaSet_Dataset.labels ms) idx = Ok name
    /\ getitem (MetaSet_Dataset.episode_loader ms) idx = Ok loader
    /\ loader
       = DataLoader.Build
           (ClassDataset.Build
              (ClassDataset.Str (pattern_of (os_path.join root [phase]) name))
              idx transform)
           (k_shot + k_eval).
Proof.
  intros E Hidx. destruct (init_inv _ _ _ _ _ _ E) as (entries & _ & L & F).
  unfold MetaSet_Dataset.__len__ in Hidx. rewrite L in *.
  destruct (getitem_total (sorted entries) idx Hidx) as (name & Ename).
  pose proof (Forall2_length F) as Hlen.
  unfold enumerate in *. rewrite length_enumerate_from in Hlen.
  destruct (getitem_total (MetaSet_Dataset.episode_loader ms) idx)
    as (loader & Eloader); [unfold len in *; lia|].
  exists name, loader. split; [exact Ename|]. split; [exact Eloader|].
  apply getitem_inv in Ename as [Nname _]; [|lia].
  apply getitem_inv in Eloader as [Nloader _]; [|lia].
  assert (Nentry : nth_error (enumerate_from 0 (sorted entries)) (Z.to_nat idx)
                   = Some (idx, name)).
  { apply nth_error_enumerate_from. split; [exact Nname|lia]. }
  assert (B : loader_built
                (MetaSet_Dataset.meta_set_as_paths (os_path.join root [phase])
                                                   (sorted entries))
                k_shot k_eval transform (idx, name) loader).
  { clear - F Nentry Nloader.
    revert Nentry Nloader. generalize (Z.to_nat idx) as j.
    induction F as [|e l es ls Hel _ IH]; intros j; destruct j; simpl;
      try discriminate.
    - now intros [= ->] [= ->].
    - apply IH. }
  destruct B as (Epath & Elabel & Etr & Ebatch & _). cbn [fst] in *.
  assert (Eimg : getitem (MetaSet_Dataset.meta_set_as_paths
                            (os_path.join root [phase]) (sorted entries)) idx
                 = Ok (ClassDataset.Str
                         (pattern_of (os_path.join root [phase]) name))).
  { unfold MetaSet_Dataset.meta_set_as_paths.
    apply (getitem_map
             (fun label =>
                ClassDataset.Str (os_path.join (os_path.join root [phase])
                                               [label; "*"%string])));
      [lia|]. apply getitem_nth; [lia|exact Nname]. }
  rewrite Eimg in Epath. injection Epath as Epath.
  destruct loader as [[images label tr] batch]. simpl in *. now subst.
Qed.

End MetaSet.

(** ** The characters of a glob pattern *)

Lemma string_app_assoc (s1 s2 s3 : string) :
  ((s1 ++ s2) ++ s3 = s1 ++ (s2 ++ s3))%string.
Proof. induction s1 as [|c s1 IH]; simpl; [reflexivity|now rewrite IH]. Qed.

(** Appending a string that starts a code point of its own. *)
Lemma split_code_points_app (s t : string) :
  fst (split_code_points t) = EmptyString ->
  split_code_points (s ++ t)
  = (fst (split_code_points s),
     snd (split_code_points s) ++ snd (split_code_points t)).
Proof.
  intros Ht. induction s as [|c s IH].
  - simpl. rewrite <- Ht. now destruct (split_code_points t).
  - simpl. rewrite IH. destruct (split_code_points s) as [pending done].
    simpl. now destruct (is_continuation c).
Qed.

Lemma chars_app (s t : string) :
  fst (split_code_points t) = EmptyString ->
  chars (s ++ t) = chars s ++ chars t.
Proof.
  intros Ht. unfold chars. rewrite (split_code_points_app s t Ht).
  destruct (split_code_points s) as [pending done].
  destruct (split_code_points t) as [pending' done']. simpl in *. subst pending'.
  now destruct pending.
Qed.

Lemma ends_with_sep_inv (p : string) :
  os_path.ends_with_sep p = true -> exists q, p = (q ++ "/")%string.
Proof.
  induction p as [|c p IH]; simpl; [discriminate|].
  destruct p as [|c' p'].
  - intros E. apply Ascii.eqb_eq in E. subst c. now exists ""%string.
  - intros E. destruct (IH E) as (q & ->). now exists (String c q).
Qed.

(** A glob pattern ends in a star, and after a separator unless the class
    directory has the empty path. *)
Lemma pattern_shape (root name : string) :
  pattern_of root name = "*"%string
  \/ exists q, pattern_of root name = (q ++ "/*")%string.
Proof.
  unfold pattern_of, os_path.join. cbn [fold_left].
  generalize (os_path.join2 root name) as p. intros p.
  unfold os_path.join2. cbn [os_path.starts_with_sep].
  destruct (String.eqb_spec p "") as [->|Hp]; [now left|]. cbn [orb].
  destruct (os_path.ends_with_sep p) eqn:E.
  - destruct (ends_with_sep_inv p E) as (q & ->). right. exists q.
    now rewrite string_app_assoc.
  - right. now exists p.
Qed.

Lemma join2_named (root name : string) :
  name <> ""%string -> os_path.join2 root name <> ""%string.
Proof.
  intros Hname. unfold os_path.join2.
  destruct (os_path.starts_with_sep name); [exact Hname|].
  destruct (String.eqb root "" || os_path.ends_with_sep root)%bool.
  - destruct root; simpl; [exact Hname|discriminate].
  - destruct root; simpl; discriminate.
Qed.

(** The star is a character of every pattern, and so is the separator when
    the class has a name. *)
Lemma pattern_chars (root name : string) :
  In "*"%string (chars (pattern_of root name))
  /\ (name <> ""%string -> In "/"%string (chars (pattern_of root name))).
Proof.
  split.
  - destruct (pattern_shape root name) as [->|(q & ->)]; [now left|].
    rewrite chars_app by reflexivity. apply in_or_app. right. right. now left.
  - intros Hname. pose proof (join2_named root name Hname) as Hp. revert Hp.
    unfold pattern_of, os_path.join. cbn [fold_left].
    generalize (os_path.join2 root name) as p. intros p Hp.
    unfold os_path.join2. cbn [os_path.starts_with_sep].
    destruct (String.eqb_spec p "") as [->|_]; [contradiction|]. cbn [orb].
    destruct (os_path.ends_with_sep p) eqn:E.
    + destruct (ends_with_sep_inv p E) as (q & ->).
      rewrite string_app_assoc. change ("/" ++ "*")%string with "/*"%string.
      rewrite chars_app by reflexivity. apply in_or_app. right. now left.
    + change (p ++ "/" ++ "*")%string with (p ++ "/*")%string.
      rewrite chars_app by reflexivity. apply in_or_app. right. now left.
Qed.

(** A glob pattern is never the empty sequence. *)
Lemma pattern_nonempty (root name : string) :
  0 < len (chars (pattern_of root name)).
Proof.
  destruct (pattern_chars root name) as [Hstar _].
  destruct (chars (pattern_of root name)); [contradiction|].
  unfold len. simpl. lia.
Qed.

(** ** Fetching the batch of a class *)

Lemma for_each_inv {A B} (f : A -> result B) (l : list A) :
  forall bs, for_each f l = Ok bs -> Forall2 (fun a b => f a = Ok b) l bs.
Proof.
  induction l as [|a l IH]; simpl; intros bs.
  - intros [= <-]. constructor.
  - destruct (f a) as [b|] eqn:E; [|discriminate]. cbn [bind].
    destruct (for_each f l) as [bs'|]; [|discriminate]. cbn [bind].
    intros [= <-]. constructor; auto.
Qed.

Lemma for_each_total {A B} (f : A -> result B) (l : list A) :
  (forall a, In a l -> exists b, f a = Ok b) ->
  exists bs, for_each f l = Ok bs.
Proof.
  induction l as [|a l IH]; intros Hall; simpl.
  - now exists [].
  - destruct (Hall a) as (b & ->); [now left|].
    destruct IH as (bs & ->); [intros a' Hin; apply Hall; now right|].
    now exists (b :: bs).
Qed.

Lemma map_nth_range {A} (l : list A) (d : A) :
  map (fun i => nth (Z.to_nat i) l d) (range (len l)) = l.
Proof.
  unfold range, len. rewrite Nat2Z.id, map_map.
  rewrite (map_ext _ (fun k => nth k l d)) by (intros k; now rewrite Nat2Z.id).
  apply (nth_ext _ _ ((fun k => nth k l d) O) d).
  - now rewrite length_map, length_seq.
  - intros n Hn. rewrite length_map, length_seq in Hn.
    rewrite (map_nth (fun k => nth k l d)).
    now rewrite seq_nth by exact Hn.
Qed.

Lemma same_shape_eq (s1 s2 : list Z) : same_shape s1 s2 = true <-> s1 = s2.
Proof.
  revert s2. induction s1 as [|d1 s1 IH]; intros [|d2 s2]; simpl;
    try (split; [discriminate|discriminate]); [tauto|].
  rewrite andb_true_iff, Z.eqb_eq, IH. split; [intros [-> ->]|intros [= -> ->]]; auto.
Qed.

Section Fetch.

Context {G : Type} `{TorchRNG G} {Image Tensor : Type} `{TensorShape Tensor}
        `{FileSystem Image}.

Lemma class_getitem_inv (ds : ClassDataset.self Image Tensor) (idx : Z)
    (v : Image + Tensor) (y : Z) :
  ClassDataset.__getitem__ ds idx = Ok (v, y) ->
  y = ClassDataset.label ds
  /\ exists path image,
      getitem (ClassDataset.items (ClassDataset.images ds)) idx = Ok path
      /\ open_rgb path = Ok image
      /\ v = match ClassDataset.transform ds with
             | Some t => inr (t image)
             | None => inl image
             end.
Proof.
  unfold ClassDataset.__getitem__.
  destruct (getitem _ idx) as [path|]; [|discriminate]. cbn [bind].
  destruct (open_rgb path) as [image|] eqn:E; [|discriminate]. cbn [bind].
  intros [= <- <-]. split; [reflexivity|]. now exists path, image.
Qed.

(** Tensors of one shape. *)
Definition one_shape (xs : list Tensor) : Prop :=
  forall x y, In x xs -> In y xs -> shape x = shape y.

Lemma stack_inv (xs stacked : list Tensor) :
  DataLoader.stack xs = Ok stacked -> stacked = xs /\ xs <> [] /\ one_shape xs.
Proof.
  destruct xs as [|t rest]; simpl; [discriminate|].
  destruct (forallb _ rest) eqn:E; [|discriminate]. intros [= <-].
  split; [reflexivity|]. split; [discriminate|].
  rewrite forallb_forall in E.
  assert (Ht : forall x, In x (t :: rest) -> shape x = shape t).
  { intros x [<-|Hx]; [reflexivity|]. now apply same_shape_eq, E. }
  intros x y Hx Hy. now rewrite (Ht x Hx), (Ht y Hy).
Qed.

Lemma stack_one_shape (xs : list Tensor) :
  xs <> [] -> one_shape xs -> DataLoader.stack xs = Ok xs.
Proof.
  destruct xs as [|t rest]; [contradiction|]. intros _ Hone. simpl.
  replace (forallb _ rest) with true; [reflexivity|].
  symmetry. apply forallb_forall. intros x Hx. apply same_shape_eq.
  apply Hone; [now right|now left].
Qed.

Lemma stack_mixed (xs : list Tensor) :
  ~ one_shape xs -> DataLoader.stack xs = Raise RuntimeError.
Proof.
  intros Hmixed. destruct (DataLoader.stack xs) as [stacked|e] eqn:E.
  - apply stack_inv in E as (_ & _ & Hone). contradiction.
  - destruct xs as [|t rest]; simpl in E; [congruence|].
    destruct (forallb _ rest); congruence.
Qed.

(** A successful collation keeps the order, the labels, and the tensors,
    which are of one shape. *)
Lemma collate_inv (samples : list ((Image + Tensor) * Z))
    (xs : list Tensor) (ys : list Z) :
  DataLoader.collate samples = Ok (xs, ys) ->
  ys = map snd samples
  /\ Forall2 (fun sample x => fst sample = inr x) samples xs
  /\ one_shape xs.
Proof.
  unfold DataLoader.collate.
  destruct (for_each _ samples) as [tensors|] eqn:E; [|discriminate].
  cbn [bind].
  destruct (DataLoader.stack tensors) as [stacked|] eqn:Es; [|discriminate].
  cbn [bind]. intros [= <- <-].
  apply stack_inv in Es as (-> & _ & Hone).
  split; [reflexivity|]. split; [|exact Hone].
  apply for_each_inv in E. eapply Forall2_impl; [|exact E].
  intros [[image|tensor] y] x; simpl; [discriminate|]. now intros [= ->].
Qed.

(** Collating samples that are tensors is stacking them. *)
Lemma collate_tensors (samples : list ((Image + Tensor) * Z)) (xs : list Tensor) :
  Forall2 (fun sample x => fst sample = inr x) samples xs ->
  DataLoader.collate samples
  = bind (DataLoader.stack xs) (fun stacked => Ok (stacked, map snd samples)).
Proof.
  intros F. unfold DataLoader.collate.
  replace (for_each _ samples) with (Ok (A := list Tensor) xs); [reflexivity|].
  induction F as [|[v y] x ss xs' Ex _ IH]; simpl; [reflexivity|].
  simpl in Ex. subst v. cbn [bind]. now rewrite <- IH.
Qed.

(** Every label of a returned batch is the label of the loader's dataset,
    and the batch has as many labels as examples. *)
Lemma first_batch_labels (loader : DataLoader.self Image Tensor) (g g' : G)
    (xs : list Tensor) (ys : list Z) :
  DataLoader.first_batch loader g = (Ok (xs, ys), g') ->
  Forall (fun y => y = ClassDataset.label (DataLoader.dataset loader)) ys
  /\ len ys = len xs.
Proof.
  unfold DataLoader.first_batch.
  destruct (random_ g) as [base_seed g0].
  destruct (randperm _ g0) as [[indices|e] g1]; [|discriminate].
  destruct (firstn _ indices) as [|i batch]; [discriminate|].
  destruct (for_each _ (i :: batch)) as [samples|] eqn:E; [|discriminate].
  cbn [bind]. intros [= Ecollate <-].
  apply collate_inv in Ecollate as (-> & F & _).
  apply for_each_inv in E. split.
  - apply Forall_map. clear - E.
    induction E as [|j [v y] js ss Ej _ IH]; constructor; auto.
    apply class_getitem_inv in Ej. simpl. tauto.
  - unfold len. now rewrite length_map, (Forall2_length F).
Qed.


End Fetch.

(** C10. In a constructed meta-dataset, for every index [idx] in
    [[0, len)], the class dataset at position [idx] of [episode_loader]
    carries the label [idx], the position of its name in the sorted listing
    of the phase directory; every batch that fetching class [idx] returns
    has [idx] as each of its labels, one label per example. Nothing updates
    a dataset after construction: [__getitem__] returns a batch and the new
    random state only. *)
Theorem metaset_label_is_position {Image Tensor} `{TensorShape Tensor}
    `{FileSystem Image}
    (root phase : string) (k_shot k_eval : Z) (transform : option (Image -> Tensor))
    (ms : MetaSet_Dataset.self Image Tensor) (idx : Z) :
  MetaSet_Dataset.__init__ root phase k_shot k_eval transform = Ok ms ->
  0 <= idx < MetaSet_Dataset.__len__ ms ->
  exists entries name loader,
    listdir (os_path.join root [phase]) = Ok entries
    /\ MetaSet_Dataset.labels ms = sorted entries
    /\ getitem (MetaSet_Dataset.labels ms) idx = Ok name
    /\ getitem (MetaSet_Dataset.episode_loader ms) idx = Ok loader
    /\ ClassDataset.label (DataLoader.dataset loader) = idx
    /\ forall (G : Type) (rng : TorchRNG G) (g g' : G)
              (xs : list Tensor) (ys : list Z),
        MetaSet_Dataset.__getitem__ ms idx g = (Ok (xs, ys), g') ->
        Forall (fun y => y = idx) ys /\ len ys = len xs.
Proof.
  intros E Hidx.
  destruct (init_inv _ _ _ _ _ _ E) as (entries & Elist & L & _).
  destruct (init_loader _ _ _ _ _ _ idx E Hidx) as (name & loader & En & El & ->).
  exists entries, name. eexists.
  split; [exact Elist|]. split; [exact L|]. split; [exact En|].
  split; [exact El|]. split; [reflexivity|].
  intros G rng g g' xs ys Ebatch.
  unfold MetaSet_Dataset.__getitem__ in Ebatch. rewrite El in Ebatch.
  apply first_batch_labels in Ebatch. exact Ebatch.
Qed.

(** The meta-dataset built from [data/train] of the concrete tree. *)
Definition demo_train : MetaSet_Dataset.self string string :=
  MetaSet_Dataset.Build
    ["cat"; "dog"]%string
    [DataLoader.Build
       (ClassDataset.Build (ClassDataset.Str "data/train/cat/*") 0
                           (Some Demo.to_tensor)) 20;
     DataLoader.Build
       (ClassDataset.Build (ClassDataset.Str "data/train/dog/*") 1
                           (Some Demo.to_tensor)) 20].

Lemma metaset_label_is_position_witness :
  (MetaSet_Dataset.__init__ "data" "train" 5 15 (Some Demo.to_tensor) = Ok demo_train
   /\ 0 <= 1 < MetaSet_Dataset.__len__ demo_train)
  /\ exists name loader,
      getitem (MetaSet_Dataset.labels demo_train) 1 = Ok name
      /\ getitem (MetaSet_Dataset.episode_loader demo_train) 1 = Ok loader
      /\ ClassDataset.label (DataLoader.dataset loader) = 1.
Proof.
  split; [split; [reflexivity|unfold MetaSet_Dataset.__len__, len; simpl; lia]|].
  destruct (metaset_label_is_position "data" "train" 5 15 (Some Demo.to_tensor) demo_train 1)
    as (entries & name & loader & _ & _ & En & El & Elabel & _);
    [reflexivity|unfold MetaSet_Dataset.__len__, len; simpl; lia|].
  exists name, loader. auto.
Defined.

(** C2, evaluated on the concrete tree. The directory of class [cat] holds
    two image files, and [glob] finds them; the class dataset created for it
    stores the glob pattern itself, a string, so that its [__len__] is the
    number of characters of the pattern, 16, and its item at an index is a
    one-character string. *)
Theorem metaset_stores_pattern :
  exists ms loader,
    MetaSet_Dataset.__init__ "data" "train" 5 15 (Some Demo.to_tensor) = Ok ms
    /\ getitem (MetaSet_Dataset.labels ms) 0 = Ok "cat"%string
    /\ getitem (MetaSet_Dataset.episode_loader ms) 0 = Ok loader
    /\ glob (pattern_of "data/train" "cat") = Demo.cat_images
    /\ len (glob (pattern_of "data/train" "cat")) = 2
    /\ ClassDataset.images (DataLoader.dataset loader)
       = ClassDataset.Str "data/train/cat/*"
    /\ ClassDataset.__len__ (DataLoader.dataset loader) = 16
    /\ getitem (ClassDataset.items (ClassDataset.images (DataLoader.dataset loader))) 0
       = Ok "d"%string.
Proof.
  exists demo_train. eexists. repeat split; reflexivity.
Qed.

(** The same for every file system and every class: what is stored is the
    pattern, whatever [glob] finds. *)
Lemma metaset_stores_pattern_always {Image Tensor} `{FileSystem Image}
    (root phase : string) (k_shot k_eval : Z) (transform : option (Image -> Tensor))
    (ms : MetaSet_Dataset.self Image Tensor) (idx : Z) :
  MetaSet_Dataset.__init__ root phase k_shot k_eval transform = Ok ms ->
  0 <= idx < MetaSet_Dataset.__len__ ms ->
  exists name loader,
    getitem (MetaSet_Dataset.labels ms) idx = Ok name
    /\ getitem (MetaSet_Dataset.episode_loader ms) idx = Ok loader
    /\ ClassDataset.images (DataLoader.dataset loader)
       = ClassDataset.Str (pattern_of (os_path.join root [phase]) name).
Proof.
  intros E Hidx.
  destruct (init_loader _ _ _ _ _ _ idx E Hidx) as (name & loader & En & El & ->).
  exists name. eexists. repeat split; eauto.
Qed.

(** C9, as the code has it. When listing the phase directory raises (the
    directory is missing), construction raises the same error. When the
    directory exists and has no entry, construction succeeds and returns
    the empty meta-dataset, of length [0]. *)
Theorem metaset_init_phase_directory {Image Tensor} `{FileSystem Image}
    (root phase : string) (k_shot k_eval : Z) (transform : option (Image -> Tensor)) :
  (forall e,
      listdir (os_path.join root [phase]) = Raise e ->
      MetaSet_Dataset.__init__ root phase k_shot k_eval transform = Raise e)
  /\ (listdir (os_path.join root [phase]) = Ok [] ->
      MetaSet_Dataset.__init__ root phase k_shot k_eval transform
      = Ok (MetaSet_Dataset.Build [] [])
      /\ MetaSet_Dataset.__len__ (MetaSet_Dataset.Build (Image := Image) (Tensor := Tensor) [] []) = 0).
Proof.
  split.
  - intros e E. unfold MetaSet_Dataset.__init__. now rewrite E.
  - intros E. unfold MetaSet_Dataset.__init__. rewrite E. split; reflexivity.
Qed.

(** C9 as stated fails in the zero-class case: [data/val] exists and is
    empty, and the meta-dataset over it is constructed, empty. The missing
    [data/test] makes construction raise. *)
Lemma metaset_init_counterexample :
  listdir "data/val" = Ok []
  /\ MetaSet_Dataset.__init__ (Image := string) (Tensor := string) "data" "val" 5 15 (Some Demo.to_tensor)
     = Ok (MetaSet_Dataset.Build [] [])
  /\ MetaSet_Dataset.__init__ (Image := string) (Tensor := string) "data" "test" 5 15 (Some Demo.to_tensor)
     = Raise (OSError "data/test").
Proof. repeat split. Qed.

(** ** Fetching from a constructed meta-dataset *)




Section ConstructedFetch.

Context {G : Type} `{TorchRNG G} {Image Tensor : Type} `{TensorShape Tensor}.

(** The indices that a loader draws for its first batch. *)
Lemma first_batch_indices {fs : FileSystem Image}
    (loader : DataLoader.self Image Tensor) (g : G) :
  exists p g',
    randperm (ClassDataset.__len__ (DataLoader.dataset loader)) (snd (random_ g))
    = (Ok p, g')
    /\ Permutation p (range (ClassDataset.__len__ (DataLoader.dataset loader))).
Proof. apply randperm_ok, len_nonneg. Qed.

(** The first batch of a loader over a non-empty dataset: the examples at
    the first [batch_size] drawn indices, collated. *)
Lemma first_batch_eq {fs : FileSystem Image}
    (loader : DataLoader.self Image Tensor) (g g' : G) (p : list Z) :
  0 < DataLoader.batch_size loader ->
  0 < ClassDataset.__len__ (DataLoader.dataset loader) ->
  randperm (ClassDataset.__len__ (DataLoader.dataset loader)) (snd (random_ g))
  = (Ok p, g') ->
  DataLoader.first_batch loader g
  = (bind (for_each (ClassDataset.__getitem__ (DataLoader.dataset loader))
                    (firstn (Z.to_nat (DataLoader.batch_size loader)) p))
          DataLoader.collate,
     g').
Proof.
  intros Hb Hn R.
  destruct (first_batch_indices loader g) as (p' & g'' & R' & P).
  rewrite R in R'. injection R' as <- <-.
  unfold DataLoader.first_batch. destruct (random_ g) as [base_seed g0].
  cbn [snd] in R. rewrite R.
  destruct (firstn _ p) as [|i batch] eqn:E; [|reflexivity].
  apply (f_equal (@List.length Z)) in E.
  rewrite length_firstn, (Permutation_length P), range_length in E.
  simpl in E. lia.
Qed.






End ConstructedFetch.





(** ** [sorted] *)


Definition name_le (s1 s2 : string) : Prop := String.leb s1 s2 = true.

Lemma insert_sorted_perm (s : string) (l : list string) :
  Permutation (insert_sorted s l) (s :: l).
Proof.
  induction l as [|x l IH]; simpl; [reflexivity|].
  destruct (String.leb s x); [reflexivity|].
  rewrite IH. apply perm_swap.
Qed.

Lemma sorted_perm (l : list string) : Permutation (sorted l) l.
Proof.
  induction l as [|s l IH]; simpl; [reflexivity|].
  rewrite insert_sorted_perm. now constructor.
Qed.

Lemma insert_sorted_HdRel (s a : string) (l : list string) :
  name_le a s -> HdRel name_le a l -> HdRel name_le a (insert_sorted s l).
Proof.
  intros Has Hal. destruct l as [|x l]; simpl.
  - now constructor.
  - destruct (String.leb s x); constructor; auto. now inversion Hal.
Qed.

Lemma insert_sorted_Sorted (s : string) (l : list string) :
  Sorted name_le l -> Sorted name_le (insert_sorted s l).
Proof.
  induction 1 as [|x l Hl IH Hx]; simpl.
  - repeat constructor.
  - destruct (String.leb s x) eqn:E.
    + constructor; [now constructor|]. now constructor.
    + constructor; [exact IH|]. apply insert_sorted_HdRel; [|exact Hx].
      destruct (String.leb_total s x) as [L|L]; [congruence|exact L].
Qed.

(** The class names of a meta-dataset come in ascending order. *)
Lemma sorted_Sorted (l : list string) : Sorted name_le (sorted l).
Proof.
  induction l as [|s l IH]; simpl; [constructor|].
  now apply insert_sorted_Sorted.
Qed.

(** Through [__init__] on the concrete tree, fetching class [cat] opens the
    characters of the stored pattern as if they were image paths, and the
    decoder rejects the first one drawn. *)
Example metaset_fetch_through_init :
  MetaSet_Dataset.__getitem__ demo_train 0 (snd (seed_everything 42 0))
  = (Raise (OSError "t"), 14542152906443789121).
Proof. vm_compute. reflexivity. Qed.

(** * Further properties of the episodic loader *)

(** ** Iterating a sampler, episode by episode *)

Section SamplerEpisodes.

Context {G : Type} `{TorchRNG G}.
Import EpisodicSampler.

(** What [k] rounds of the loop body draw and yield, the random state
    being handed from one round to the next. *)
Fixpoint rounds (total_classes n_classes : Z) (k : nat) (g : G)
  : list (list Z) * ending * G :=
  match k with
  | O => ([], Stopped, g)
  | S k' =>
      match randperm total_classes g with
      | (Ok p, g') =>
          let '(groups, e, g'') := rounds total_classes n_classes k' g' in
          (slice_to n_classes p :: groups, e, g'')
      | (Raise e, g') => ([], Failed e, g')
      end
  end.

Lemma randperm_never_stops (n : Z) (g g' : G) :
  randperm n g <> (Raise StopIteration, g').
Proof.
  intros E. destruct (Z_lt_le_dec n 0) as [Hn|Hn].
  - destruct (randperm_fails n g Hn) as (g1 & R). congruence.
  - destruct (randperm_ok n g Hn) as (p & g1 & R & _). congruence.
Qed.

Lemma consume_episodes (k : nat) :
  forall (s : self) (episode : Z) (g : G),
    Z.to_nat (n_episode s - episode) = k ->
    consume (S k) (Suspended s episode) g
    = Some (let '(groups, e, g') :=
              rounds (total_classes s) (n_classes s) k g in
            (groups, e, Finished, g')).
Proof.
  induction k as [|k IH]; intros s episode g Hk.
  - cbn [consume rounds]. rewrite next_stops by lia. reflexivity.
  - assert (Hlt : (episode <? n_episode s) = true) by (apply Z.ltb_lt; lia).
    change (consume (S (S k)) (Suspended s episode) g)
      with (match next (Suspended s episode) g with
            | (Ok group, gen', g') =>
                match consume (S k) gen' g' with
                | Some (groups, e, gen'', g'') =>
                    Some (group :: groups, e, gen'', g'')
                | None => None
                end
            | (Raise StopIteration, gen', g') => Some ([], Stopped, gen', g')
            | (Raise e, gen', g') => Some ([], Failed e, gen', g')
            end).
    cbn [rounds]. unfold next. rewrite Hlt.
    destruct (randperm (total_classes s) g) as [[p|e] g'] eqn:R.
    + rewrite (IH s (episode + 1) g') by lia.
      destruct (rounds (total_classes s) (n_classes s) k g') as [[groups e] g''].
      reflexivity.
    + destruct e; try reflexivity.
      exfalso. exact (randperm_never_stops _ _ _ R).
Qed.

Lemma to_list_episodes (s : self) (g : G) :
  to_list s g
  = Some (let '(groups, e, g') :=
            rounds (total_classes s) (n_classes s) (Z.to_nat (n_episode s)) g in
          (groups, e, Finished, g')).
Proof.
  unfold to_list, __iter__, calls_left.
  rewrite (consume_episodes (Z.to_nat (n_episode s - 0)) s 0 g eq_refl).
  now rewrite Z.sub_0_r.
Qed.

Lemma episodes_app (tc nc : Z) (a b : nat) :
  forall (g : G) groups g1,
    rounds tc nc a g = (groups, Stopped, g1) ->
    rounds tc nc (a + b) g
    = (let '(groups', e, g2) := rounds tc nc b g1 in (groups ++ groups', e, g2)).
Proof.
  induction a as [|a IH]; intros g groups g1; cbn [rounds Nat.add].
  - intros [= <- <-]. now destruct (rounds tc nc b g) as [[? ?] ?].
  - destruct (randperm tc g) as [[p|e] g'] eqn:R; [|discriminate].
    destruct (rounds tc nc a g') as [[gs e] g''] eqn:E.
    intros [= <- -> <-]. rewrite (IH g' gs g'' E).
    now destruct (rounds tc nc b g'') as [[? ?] ?].
Qed.

End SamplerEpisodes.

(** X1. Iterating a sampler of [a + b] episodes is iterating one of [a]
    episodes and then, from the random state this leaves, one of [b]
    episodes over the same classes: the groups of the long run are those
    of the first run followed by those of the second, however the second
    ends. *)
Theorem sampler_iteration_splits {G} `{TorchRNG G}
    (total_classes n_classes a b : Z) (g g1 : G) (groups : list (list Z)) :
  0 <= a -> 0 <= b ->
  EpisodicSampler.to_list (EpisodicSampler.Build total_classes n_classes a) g
  = Some (groups, EpisodicSampler.Stopped, EpisodicSampler.Finished, g1) ->
  EpisodicSampler.to_list (EpisodicSampler.Build total_classes n_classes (a + b)) g
  = match EpisodicSampler.to_list
            (EpisodicSampler.Build total_classes n_classes b) g1 with
    | Some (groups', e, gen, g2) => Some (groups ++ groups', e, gen, g2)
    | None => None
    end.
Proof.
  intros Ha Hb. rewrite !to_list_episodes. cbn [EpisodicSampler.total_classes
    EpisodicSampler.n_classes EpisodicSampler.n_episode].
  destruct (rounds total_classes n_classes (Z.to_nat a) g) as [[gs e] g'] eqn:E.
  intros [= -> -> ->].
  rewrite Z2Nat.inj_add by assumption.
  rewrite (episodes_app _ _ _ (Z.to_nat b) g groups g1 E).
  now destruct (rounds total_classes n_classes (Z.to_nat b) g1) as [[? ?] ?].
Qed.

Lemma sampler_iteration_splits_witness :
  EpisodicSampler.to_list (EpisodicSampler.Build 10 5 (1 + 2)) (snd (seed_everything 42 0))
  = Some ([[1; 2; 0; 3; 5]; [2; 5; 1; 7; 9]; [4; 2; 1; 6; 5]],
          EpisodicSampler.Stopped, EpisodicSampler.Finished,
          11397048638288055512).
Proof.
  rewrite (sampler_iteration_splits 10 5 1 2 (snd (seed_everything 42 0))
             457466634992928148 [[1; 2; 0; 3; 5]]);
    [vm_compute; reflexivity|lia|lia|vm_compute; reflexivity].
Defined.

(** ** The order of class names *)

Lemma string_compare_refl (s : string) : String.compare s s = Eq.
Proof.
  induction s as [|c s IH]; simpl; [reflexivity|].
  unfold Ascii.compare. now rewrite N.compare_refl.
Qed.

Lemma string_lt_trans (x : string) :
  forall y z,
    String.compare x y = Lt -> String.compare y z = Lt -> String.compare x z = Lt.
Proof.
  induction x as [|a x IH]; intros [|b y] [|c z]; simpl; try discriminate; auto.
  unfold Ascii.compare.
  destruct (N.compare_spec (N_of_ascii a) (N_of_ascii b)) as [Eab|Lab|Gab];
    try discriminate;
    destruct (N.compare_spec (N_of_ascii b) (N_of_ascii c)) as [Ebc|Lbc|Gbc];
    try discriminate; intros Hxy Hyz.
  - rewrite Eab, Ebc, N.compare_refl. eapply IH; eassumption.
  - rewrite Eab. now apply N.compare_lt_iff in Lbc as ->.
  - rewrite <- Ebc. now apply N.compare_lt_iff in Lab as ->.
  - assert (L : (N_of_ascii a < N_of_ascii c)%N) by (eapply N.lt_trans; eassumption).
    now apply N.compare_lt_iff in L as ->.
Qed.

Lemma name_le_refl (s : string) : name_le s s.
Proof. unfold name_le, String.leb. now rewrite string_compare_refl. Qed.

Lemma name_le_trans (x y z : string) : name_le x y -> name_le y z -> name_le x z.
Proof.
  unfold name_le, String.leb. intros Hxy Hyz.
  destruct (String.compare x y) eqn:Exy; try discriminate.
  - apply String.compare_eq_iff in Exy. now subst.
  - destruct (String.compare y z) eqn:Eyz; try discriminate.
    + apply String.compare_eq_iff in Eyz. subst. now rewrite Exy.
    + now rewrite (string_lt_trans x y z Exy Eyz).
Qed.

(** A list of names has one ascending arrangement only. *)
Lemma sorted_unique (l1 : list string) :
  forall l2,
    StronglySorted name_le l1 -> StronglySorted name_le l2 ->
    Permutation l1 l2 -> l1 = l2.
Proof.
  induction l1 as [|a l1 IH]; intros l2 S1 S2 P.
  - now apply Permutation_nil in P.
  - destruct l2 as [|b l2]; [symmetry in P; now apply Permutation_nil in P|].
    inversion S1 as [|? ? S1' H1]; inversion S2 as [|? ? S2' H2]; subst.
    assert (Hab : a = b).
    { assert (Ia : In a (b :: l2)) by (apply (Permutation_in _ P); now left).
      assert (Ib : In b (a :: l1))
        by (apply (Permutation_in _ (Permutation_sym P)); now left).
      destruct Ia as [->|Ia]; [reflexivity|].
      destruct Ib as [->|Ib]; [reflexivity|].
      rewrite Forall_forall in H1, H2.
      apply String.leb_antisym; [apply H1, Ib|apply H2, Ia]. }
    subst b. f_equal. apply IH; auto. eapply Permutation_cons_inv, P.
Qed.

Lemma sorted_StronglySorted (l : list string) : StronglySorted name_le (sorted l).
Proof.
  apply Sorted_StronglySorted; [|apply sorted_Sorted].
  intros x y z. apply name_le_trans.
Qed.

Lemma sorted_permutation_eq (l1 l2 : list string) :
  Permutation l1 l2 -> sorted l1 = sorted l2.
Proof.
  intros P. apply sorted_unique; try apply sorted_StronglySorted.
  rewrite !sorted_perm. exact P.
Qed.

(** ** Constructing a meta-dataset *)

Section MetaSetConstruction.

Context {Image Tensor : Type} `{FileSystem Image}.

(** The loader that [__init__] makes for the class of a name at a
    position. *)
Definition loader_of (root : string) (k_shot k_eval : Z)
    (transform : option (Image -> Tensor)) (entry : Z * string)
  : DataLoader.self Image Tensor :=
  DataLoader.Build
    (ClassDataset.Build (ClassDataset.Str (pattern_of root (snd entry)))
                        (fst entry) transform)
    (k_shot + k_eval).

Lemma paths_at_enumerated (root : string) (labels : list string)
    (idx : Z) (name : string) :
  In (idx, name) (enumerate labels) ->
  getitem (MetaSet_Dataset.meta_set_as_paths root labels) idx
  = Ok (ClassDataset.Str (pattern_of root name)).
Proof.
  intros Hin. apply In_nth_error in Hin as (j & Hj).
  apply nth_error_enumerate_from in Hj as (Hname & ->).
  unfold MetaSet_Dataset.meta_set_as_paths.
  apply (getitem_map (fun label => ClassDataset.Str (pattern_of root label)));
    [lia|].
  apply getitem_nth; [lia|]. now rewrite Z.add_0_l, Nat2Z.id.
Qed.

Lemma build_loaders_total (root : string) (paths : list ClassDataset.sequence)
    (k_shot k_eval : Z) (transform : option (Image -> Tensor))
    (todo : list (Z * string)) :
  0 < k_shot + k_eval ->
  (forall idx name,
      In (idx, name) todo ->
      getitem paths idx = Ok (ClassDataset.Str (pattern_of root name))) ->
  forall episode_loader,
    MetaSet_Dataset.build_loaders todo paths k_shot k_eval transform episode_loader
    = Ok (episode_loader ++ map (loader_of root k_shot k_eval transform) todo).
Proof.
  intros Hpos. induction todo as [|[idx name] todo IH]; intros Hpaths acc; simpl.
  - now rewrite app_nil_r.
  - rewrite (Hpaths idx name) by now left. cbn [bind].
    unfold DataLoader.__init__, ClassDataset.__len__, ClassDataset.__init__.
    cbn [ClassDataset.images ClassDataset.items].
    destruct (k_shot + k_eval <=? 0) eqn:E1; [apply Z.leb_le in E1; lia|].
    assert (E2 : (len (chars (pattern_of root name)) <=? 0) = false).
    { apply Z.leb_gt. apply pattern_nonempty. }
    rewrite E2. cbn [bind].
    rewrite IH by (intros i n Hin; apply Hpaths; now right).
    now rewrite <- app_assoc.
Qed.

Lemma build_loaders_rejects (paths : list ClassDataset.sequence)
    (k_shot k_eval : Z) (transform : option (Image -> Tensor))
    (idx : Z) (name : string) (todo : list (Z * string))
    (images : ClassDataset.sequence)
    (episode_loader : list (DataLoader.self Image Tensor)) :
  k_shot + k_eval <= 0 ->
  getitem paths idx = Ok images ->
  MetaSet_Dataset.build_loaders ((idx, name) :: todo) paths k_shot k_eval
                                transform episode_loader
  = Raise ValueError.
Proof.
  intros Hneg Hpath. simpl. rewrite Hpath. cbn [bind].
  unfold DataLoader.__init__. apply Z.leb_le in Hneg. now rewrite Hneg.
Qed.

End MetaSetConstruction.

(** X2. Once the phase directory can be listed, construction depends on
    the batch size [k_shot + k_eval] alone. If it is positive, or the
    directory is empty, construction succeeds: the classes are the entries
    in ascending order of name, and class [idx] gets one loader of batch
    size [k_shot + k_eval] over a dataset labelled [idx] that holds the
    class's glob pattern. If it is not positive and there is an entry,
    construction raises [ValueError]. *)
Theorem metaset_init_outcome {Image Tensor} `{FileSystem Image}
    (root phase : string) (k_shot k_eval : Z) (transform : option (Image -> Tensor))
    (entries : list string) :
  listdir (os_path.join root [phase]) = Ok entries ->
  (entries = [] \/ 0 < k_shot + k_eval ->
   MetaSet_Dataset.__init__ root phase k_shot k_eval transform
   = Ok (MetaSet_Dataset.Build
           (sorted entries)
           (map (loader_of (os_path.join root [phase]) k_shot k_eval transform)
                (enumerate (sorted entries)))))
  /\ (entries <> [] -> k_shot + k_eval <= 0 ->
      MetaSet_Dataset.__init__ root phase k_shot k_eval transform
      = Raise ValueError).
Proof.
  intros Elist. unfold MetaSet_Dataset.__init__. rewrite Elist. cbn [bind]. split.
  - intros [->|Hpos]; [reflexivity|].
    rewrite (build_loaders_total (os_path.join root [phase])) with (1 := Hpos).
    + reflexivity.
    + intros idx name. apply paths_at_enumerated.
  - intros Hne Hneg.
    assert (Hs : sorted entries <> []).
    { intros E. apply Hne. apply Permutation_nil.
      rewrite <- E. apply sorted_perm. }
    destruct (sorted entries) as [|name rest] eqn:Es; [contradiction|].
    unfold enumerate. cbn [enumerate_from].
    rewrite (build_loaders_rejects _ _ _ _ _ _ _
               (ClassDataset.Str (pattern_of (os_path.join root [phase]) name)));
      [reflexivity|exact Hneg|].
    apply paths_at_enumerated. unfold enumerate. now left.
Qed.

Lemma metaset_init_outcome_witness :
  listdir "data/train" = Ok ["dog"; "cat"]%string
  /\ MetaSet_Dataset.__init__ "data" "train" 5 15 (Some Demo.to_tensor)
     = Ok demo_train
  /\ MetaSet_Dataset.__init__ "data" "train" 5 (-5) (Some Demo.to_tensor)
     = Raise ValueError.
Proof.
  split; [reflexivity|].
  assert (L : listdir (os_path.join "data" ["train"%string])
              = Ok ["dog"; "cat"]%string) by reflexivity.
  destruct (metaset_init_outcome "data" "train" 5 15 (Some Demo.to_tensor)
              ["dog"; "cat"]%string L) as [Hok _].
  destruct (metaset_init_outcome "data" "train" 5 (-5) (Some Demo.to_tensor)
              ["dog"; "cat"]%string L) as [_ Hbad].
  split.
  - rewrite Hok by (right; lia). reflexivity.
  - apply Hbad; [discriminate|lia].
Defined.

(** X3. The order in which the directory listing returns the entries does
    not matter: two file systems whose listings of the phase directory hold
    the same entries, in any order, give the same meta-dataset, whatever
    their files. *)
Theorem metaset_init_listing_order {Image Tensor}
    (fs1 fs2 : FileSystem Image)
    (root phase : string) (k_shot k_eval : Z) (transform : option (Image -> Tensor))
    (entries1 entries2 : list string) :
  @listdir Image fs1 (os_path.join root [phase]) = Ok entries1 ->
  @listdir Image fs2 (os_path.join root [phase]) = Ok entries2 ->
  Permutation entries1 entries2 ->
  @MetaSet_Dataset.__init__ Image Tensor fs1 root phase k_shot k_eval transform
  = @MetaSet_Dataset.__init__ Image Tensor fs2 root phase k_shot k_eval transform.
Proof.
  intros E1 E2 P. unfold MetaSet_Dataset.__init__. rewrite E1, E2. cbn [bind].
  rewrite (sorted_permutation_eq _ _ P). reflexivity.
Qed.

(** The concrete tree as another file system presents it: the entries of
    [data/train] come in the other order, and [glob] finds nothing. *)
Definition demo_fs_reordered : FileSystem string := {|
  listdir := fun p =>
    if String.eqb p "data/train" then Ok ["cat"; "dog"]%string
    else Demo.listdir p;
  glob := fun _ => [];
  open_rgb := Demo.open_rgb
|}.

Lemma metaset_init_listing_order_witness :
  @MetaSet_Dataset.__init__ string string demo_fs "data" "train" 5 15
     (Some Demo.to_tensor)
  = @MetaSet_Dataset.__init__ string string demo_fs_reordered "data" "train" 5 15
      (Some Demo.to_tensor).
Proof.
  apply (metaset_init_listing_order demo_fs demo_fs_reordered "data" "train" 5 15
           (Some Demo.to_tensor) ["dog"; "cat"]%string ["cat"; "dog"]%string);
    [reflexivity|reflexivity|apply perm_swap].
Defined.

(** ** Indexing a meta-dataset *)

Lemma getitem_negative {A} (l : list A) (i : Z) :
  - len l <= i < 0 -> getitem l i = getitem l (len l + i).
Proof.
  intros Hi. rewrite (getitem_nonneg l (len l + i)) by lia.
  unfold getitem.
  assert (E1 : (i <? 0) = true) by (apply Z.ltb_lt; lia).
  assert (E2 : (i + len l <? 0) = false) by (apply Z.ltb_ge; lia).
  rewrite E1. cbv zeta. rewrite E2. cbn [orb].
  now rewrite (Z.add_comm i (len l)).
Qed.

Lemma getitem_out_of_range {A} (l : list A) (i : Z) :
  i < - len l \/ len l <= i -> getitem l i = Raise IndexError.
Proof.
  intros Hi. pose proof (len_nonneg l) as Hl. unfold getitem.
  destruct (i <? 0) eqn:E1; cbv zeta.
  - apply Z.ltb_lt in E1.
    assert (E2 : (i + len l <? 0) = true) by (apply Z.ltb_lt; lia).
    now rewrite E2.
  - apply Z.ltb_ge in E1. rewrite (proj2 (Z.ltb_ge i 0)) by lia.
    assert (E2 : (len l <=? i) = true) by (apply Z.leb_le; lia).
    now rewrite E2.
Qed.

(** X4. Indexing a constructed meta-dataset of [N] classes follows list
    indexing. An index outside [[-N, N)] raises [IndexError] and draws no
    random number. An index in [[-N, 0)] fetches class [N + idx]: every
    label of a batch it returns is [N + idx], not [idx]. *)
Theorem metaset_getitem_index {G} `{TorchRNG G} {Image Tensor}
    `{TensorShape Tensor} `{FileSystem Image}
    (root phase : string) (k_shot k_eval : Z) (transform : option (Image -> Tensor))
    (ms : MetaSet_Dataset.self Image Tensor) (idx : Z) (g : G) :
  MetaSet_Dataset.__init__ root phase k_shot k_eval transform = Ok ms ->
  (idx < - MetaSet_Dataset.__len__ ms \/ MetaSet_Dataset.__len__ ms <= idx ->
   MetaSet_Dataset.__getitem__ ms idx g = (Raise IndexError, g))
  /\ (- MetaSet_Dataset.__len__ ms <= idx < 0 ->
      MetaSet_Dataset.__getitem__ ms idx g
      = MetaSet_Dataset.__getitem__ ms (MetaSet_Dataset.__len__ ms + idx) g
      /\ forall xs ys g',
          MetaSet_Dataset.__getitem__ ms idx g = (Ok (xs, ys), g') ->
          Forall (fun y => y = MetaSet_Dataset.__len__ ms + idx) ys).
Proof.
  intros E.
  assert (Hlen : len (MetaSet_Dataset.episode_loader ms) = MetaSet_Dataset.__len__ ms).
  { destruct (init_inv _ _ _ _ _ _ E) as (entries & _ & L & F).
    unfold MetaSet_Dataset.__len__, len. rewrite L.
    rewrite <- (Forall2_length F). unfold enumerate.
    now rewrite length_enumerate_from. }
  split.
  - intros Hout. unfold MetaSet_Dataset.__getitem__.
    now rewrite getitem_out_of_range by (rewrite Hlen; exact Hout).
  - intros Hneg.
    assert (Ewrap : MetaSet_Dataset.__getitem__ ms idx g
                    = MetaSet_Dataset.__getitem__ ms (MetaSet_Dataset.__len__ ms + idx) g).
    { unfold MetaSet_Dataset.__getitem__.
      rewrite getitem_negative by (rewrite Hlen; exact Hneg). now rewrite Hlen. }
    split; [exact Ewrap|]. intros xs ys g' Eb. rewrite Ewrap in Eb.
    destruct (init_loader _ _ _ _ _ _ (MetaSet_Dataset.__len__ ms + idx) E)
      as (name & loader & _ & El & ->); [lia|].
    unfold MetaSet_Dataset.__getitem__ in Eb. rewrite El in Eb.
    now apply first_batch_labels in Eb.
Qed.

Lemma metaset_getitem_index_witness :
  MetaSet_Dataset.__getitem__ demo_train 2 (snd (seed_everything 42 0))
  = (Raise IndexError, snd (seed_everything 42 0))
  /\ MetaSet_Dataset.__getitem__ demo_train (-1) (snd (seed_everything 42 0))
     = MetaSet_Dataset.__getitem__ demo_train 1 (snd (seed_everything 42 0)).
Proof.
  assert (E : MetaSet_Dataset.__init__ "data" "train" 5 15 (Some Demo.to_tensor)
              = Ok demo_train) by reflexivity.
  destruct (metaset_getitem_index "data" "train" 5 15 (Some Demo.to_tensor)
              demo_train 2 (snd (seed_everything 42 0)) E) as [Hout _].
  destruct (metaset_getitem_index "data" "train" 5 15 (Some Demo.to_tensor)
              demo_train (-1) (snd (seed_everything 42 0)) E) as [_ Hneg].
  split.
  - apply Hout. right. unfold MetaSet_Dataset.__len__, len. simpl. lia.
  - apply Hneg. unfold MetaSet_Dataset.__len__, len. simpl. lia.
Defined.

(** ** Batches *)

Section Batches.

Context {G : Type} `{TorchRNG G} {Image Tensor : Type} `{TensorShape Tensor}
        `{FileSystem Image}.

(** The batch of a loader whose drawn items decode: their tensors,
    stacked. *)
Lemma first_batch_decoded (loader : DataLoader.self Image Tensor) (g g' : G)
    (p : list Z) (t : Image -> Tensor) (images : list Image) :
  0 < DataLoader.batch_size loader ->
  0 < ClassDataset.__len__ (DataLoader.dataset loader) ->
  ClassDataset.transform (DataLoader.dataset loader) = Some t ->
  randperm (ClassDataset.__len__ (DataLoader.dataset loader)) (snd (random_ g))
  = (Ok p, g') ->
  Forall2 (fun i image =>
             exists c,
               getitem (ClassDataset.items
                          (ClassDataset.images (DataLoader.dataset loader))) i
               = Ok c
               /\ open_rgb c = Ok image)
          (firstn (Z.to_nat (DataLoader.batch_size loader)) p) images ->
  DataLoader.first_batch loader g
  = (bind (DataLoader.stack (map t images))
          (fun stacked =>
             Ok (stacked,
                 List.repeat (ClassDataset.label (DataLoader.dataset loader))
                             (List.length images))),
     g').
Proof.
  intros Hb Hn Et R F. rewrite (first_batch_eq loader g g' p Hb Hn R).
  set (ds := DataLoader.dataset loader) in *.
  assert (Es : for_each (ClassDataset.__getitem__ ds)
                        (firstn (Z.to_nat (DataLoader.batch_size loader)) p)
               = Ok (map (fun image => (inr (t image), ClassDataset.label ds))
                         images)).
  { induction F as [|i image batch images' (c & Ec & Eimg) _ IH]; simpl;
      [reflexivity|].
    unfold ClassDataset.__getitem__ at 1. rewrite Ec. cbn [bind].
    rewrite Eimg. cbn [bind]. rewrite Et, IH. reflexivity. }
  assert (Ey : map (fun _ : Image => ClassDataset.label ds) images
               = List.repeat (ClassDataset.label ds) (List.length images)).
  { clear. induction images as [|image images IH]; simpl; [reflexivity|].
    now rewrite IH. }
  rewrite Es. cbn [bind].
  rewrite (collate_tensors _ (map t images)).
  - rewrite map_map. cbn [snd]. now rewrite Ey.
  - clear. induction images as [|image images IH]; simpl; constructor; auto.
Qed.

(** Without a transform the examples are PIL images, which collation
    rejects: no batch is returned. *)
Lemma first_batch_no_transform (loader : DataLoader.self Image Tensor) (g : G) :
  ClassDataset.transform (DataLoader.dataset loader) = None ->
  exists e g', DataLoader.first_batch loader g = (Raise e, g').
Proof.
  intros Et. unfold DataLoader.first_batch.
  destruct (random_ g) as [base_seed g0].
  destruct (randperm _ g0) as [[indices|e] g1]; [|eauto].
  destruct (firstn _ indices) as [|i batch]; [eauto|].
  destruct (for_each _ (i :: batch)) as [samples|e] eqn:E; [|cbn [bind]; eauto].
  apply for_each_inv in E. inversion E as [|? [v y] ? rest Ei _]; subst.
  apply class_getitem_inv in Ei as (_ & path & image & _ & _ & ->).
  rewrite Et. cbn [bind]. unfold DataLoader.collate. cbn [for_each fst bind].
  eauto.
Qed.

End Batches.

(** X5. What a fetch from a constructed meta-dataset returns when the
    characters drawn for it decode. The loader of class [idx] draws the
    first [k_shot + k_eval] indices of a permutation of the positions of
    the class's glob pattern, [min (k_shot + k_eval) (number of
    characters)] pairwise distinct positions, and opens the characters
    there as image paths. If the tensors made of the images are of one
    shape, the fetch returns them in the drawn order, each with the label
    [idx]; if two of them differ in shape it raises [RuntimeError]. *)
Theorem full_class_batch {G} `{TorchRNG G} {Image Tensor}
    `{TensorShape Tensor} `{FileSystem Image}
    (root phase : string) (k_shot k_eval : Z) (t : Image -> Tensor)
    (ms : MetaSet_Dataset.self Image Tensor) (idx : Z) (name : string)
    (g g' : G) (p : list Z) (images : list Image) :
  MetaSet_Dataset.__init__ root phase k_shot k_eval (Some t) = Ok ms ->
  0 <= idx < MetaSet_Dataset.__len__ ms ->
  getitem (MetaSet_Dataset.labels ms) idx = Ok name ->
  randperm (len (chars (pattern_of (os_path.join root [phase]) name)))
           (snd (random_ g))
  = (Ok p, g') ->
  Forall2 (fun i image =>
             exists c,
               getitem (chars (pattern_of (os_path.join root [phase]) name)) i
               = Ok c
               /\ open_rgb c = Ok image)
          (firstn (Z.to_nat (k_shot + k_eval)) p) images ->
  NoDup (firstn (Z.to_nat (k_shot + k_eval)) p)
  /\ len images
     = Z.min (k_shot + k_eval)
             (len (chars (pattern_of (os_path.join root [phase]) name)))
  /\ (one_shape (map t images) ->
      MetaSet_Dataset.__getitem__ ms idx g
      = (Ok (map t images, List.repeat idx (List.length images)), g'))
  /\ (~ one_shape (map t images) ->
      MetaSet_Dataset.__getitem__ ms idx g = (Raise RuntimeError, g')).
Proof.
  intros E Hidx En R F.
  destruct (init_loader _ _ _ _ _ _ idx E Hidx) as (name' & loader & En' & El & Eloader).
  rewrite En in En'. injection En' as <-.
  set (pattern := pattern_of (os_path.join root [phase]) name) in *.
  assert (Hpos : 0 < k_shot + k_eval).
  { destruct (init_inv _ _ _ _ _ _ E) as (entries & _ & L & Fl).
    unfold MetaSet_Dataset.__len__ in Hidx. rewrite L in Hidx.
    destruct (enumerate (sorted entries)) as [|entry rest] eqn:Ee.
    - apply (f_equal (@List.length (Z * string))) in Ee. unfold enumerate in Ee.
      rewrite length_enumerate_from in Ee. unfold len in Hidx. simpl in Ee. lia.
    - inversion Fl as [|? l ? ? Hb _]; subst.
      now destruct Hb as (_ & _ & _ & _ & Hb). }
  pose proof (pattern_nonempty (os_path.join root [phase]) name) as Hlen.
  fold pattern in Hlen.
  destruct (randperm_ok (len (chars pattern)) (snd (random_ g)) (len_nonneg _))
    as (p' & g'' & R' & P).
  rewrite R in R'. injection R' as <- <-.
  assert (Lbatch : len (firstn (Z.to_nat (k_shot + k_eval)) p)
                   = Z.min (k_shot + k_eval) (len (chars pattern))).
  { unfold len. rewrite length_firstn, (Permutation_length P), range_length.
    unfold len. lia. }
  assert (Ebatch : MetaSet_Dataset.__getitem__ ms idx g
                   = (bind (DataLoader.stack (map t images))
                           (fun stacked =>
                              Ok (stacked, List.repeat idx (List.length images))),
                      g')).
  { unfold MetaSet_Dataset.__getitem__. rewrite El, Eloader.
    rewrite (first_batch_decoded _ g g' p t images); auto. }
  split; [|split; [|split]].
  - rewrite <- (firstn_skipn (Z.to_nat (k_shot + k_eval)) p) in P.
    pose proof (Permutation_NoDup (Permutation_sym P) (NoDup_range _)) as ND.
    exact (NoDup_app_remove_r _ _ ND).
  - rewrite <- Lbatch. unfold len. now rewrite (Forall2_length F).
  - intros Hone. rewrite Ebatch, stack_one_shape; [reflexivity| |exact Hone].
    intros Enil. apply map_eq_nil in Enil. subst images.
    apply Forall2_length in F. unfold len in Lbatch, Hlen.
    rewrite F in Lbatch. simpl in Lbatch. lia.
  - intros Hmixed. now rewrite Ebatch, stack_mixed.
Qed.

(** The concrete tree seen from a working directory that holds four
    pictures of its own, named [a], [c], [d] and [r]. *)
Definition demo_fs_cwd : FileSystem string := {|
  listdir := Demo.listdir;
  glob := Demo.glob;
  open_rgb := fun p =>
    if Demo.mem p ["a"; "c"; "d"; "r"]%string then Ok p else Demo.open_rgb p
|}.

Lemma full_class_batch_witness :
  (@MetaSet_Dataset.__init__ string string demo_fs_cwd "data" "train" 1 1
     (Some Demo.to_tensor)
   = Ok (MetaSet_Dataset.Build
           ["cat"; "dog"]%string
           [DataLoader.Build
              (ClassDataset.Build (ClassDataset.Str "data/train/cat/*") 0
                                  (Some Demo.to_tensor)) 2;
            DataLoader.Build
              (ClassDataset.Build (ClassDataset.Str "data/train/dog/*") 1
                                  (Some Demo.to_tensor)) 2])
   /\ randperm 16 (snd (random_ (snd (seed_everything 7 0))))
      = (Ok [6; 0; 3; 13; 7; 12; 1; 14; 10; 9; 2; 11; 5; 15; 8; 4],
         16462037605738411098))
  /\ @MetaSet_Dataset.__getitem__ Z string string _ _ demo_fs_cwd
       (MetaSet_Dataset.Build
          ["cat"; "dog"]%string
          [DataLoader.Build
             (ClassDataset.Build (ClassDataset.Str "data/train/cat/*") 0
                                 (Some Demo.to_tensor)) 2;
           DataLoader.Build
             (ClassDataset.Build (ClassDataset.Str "data/train/dog/*") 1
                                 (Some Demo.to_tensor)) 2])
       0 (snd (seed_everything 7 0))
     = (Ok (["r"; "d"]%string, [0; 0]), 16462037605738411098).
Proof.
  split; [split; [reflexivity|vm_compute; reflexivity]|].
  refine (proj1 (proj2 (proj2
            (@full_class_batch Z _ string string _ demo_fs_cwd
               "data" "train" 1 1 Demo.to_tensor _ 0 "cat"%string
               (snd (seed_everything 7 0)) 16462037605738411098
               [6; 0; 3; 13; 7; 12; 1; 14; 10; 9; 2; 11; 5; 15; 8; 4]
               ["r"; "d"]%string _ _ _ _ _))) _).
  - reflexivity.
  - unfold MetaSet_Dataset.__len__, len. simpl. lia.
  - reflexivity.
  - vm_compute. reflexivity.
  - repeat constructor; eexists; split; reflexivity.
  - intros x y Hx Hy. simpl in Hx, Hy.
    destruct Hx as [<-|[<-|[]]]; destruct Hy as [<-|[<-|[]]]; reflexivity.
Defined.

(** On the same tree, a fetch that draws the pictures [c] and [a], which
    differ in size, raises the error of [torch.stack]. *)
Example fetch_of_unequal_pictures :
  exists ms,
    @MetaSet_Dataset.__init__ string string demo_fs_cwd "data" "train" 1 1
      (Some Demo.to_tensor) = Ok ms
    /\ @MetaSet_Dataset.__getitem__ Z string string _ _ demo_fs_cwd ms 0
         (snd (seed_everything 1 0))
       = (Raise RuntimeError, 7831313575529992652).
Proof. eexists. split; [reflexivity|]. vm_compute. reflexivity. Qed.

(** X6. A meta-dataset constructed without a transform (the default
    [transform=None]) never returns a batch: whatever the index and the
    random state, fetching raises. *)
Theorem metaset_without_transform {G} `{TorchRNG G} {Image Tensor}
    `{TensorShape Tensor} `{FileSystem Image}
    (root phase : string) (k_shot k_eval : Z)
    (ms : MetaSet_Dataset.self Image Tensor) (idx : Z) (g : G) :
  MetaSet_Dataset.__init__ root phase k_shot k_eval None = Ok ms ->
  exists e g', MetaSet_Dataset.__getitem__ ms idx g = (Raise e, g').
Proof.
  intros E. unfold MetaSet_Dataset.__getitem__.
  destruct (getitem (MetaSet_Dataset.episode_loader ms) idx) as [loader|e] eqn:El;
    [|eauto].
  apply first_batch_no_transform.
  destruct (init_inv _ _ _ _ _ _ E) as (entries & _ & _ & F).
  assert (Hin : In loader (MetaSet_Dataset.episode_loader ms)).
  { unfold getitem in El.
    destruct (_ || _)%bool; [discriminate|].
    destruct (nth_error _ _) eqn:N; [|discriminate].
    injection El as <-. eapply nth_error_In, N. }
  clear - F Hin. induction F as [|entry l es ls Hb _ IH]; [contradiction|].
  destruct Hin as [<-|Hin]; [|now apply IH].
  now destruct Hb as (_ & _ & Ht & _).
Qed.

Lemma metaset_without_transform_witness :
  MetaSet_Dataset.__init__ (Tensor := string) "data" "train" 5 15 None
  = Ok (MetaSet_Dataset.Build
          ["cat"; "dog"]%string
          [DataLoader.Build
             (ClassDataset.Build (ClassDataset.Str "data/train/cat/*") 0 None) 20;
           DataLoader.Build
             (ClassDataset.Build (ClassDataset.Str "data/train/dog/*") 1 None) 20])
  /\ exists e g',
      MetaSet_Dataset.__getitem__
        (MetaSet_Dataset.Build
           ["cat"; "dog"]%string
           [DataLoader.Build
              (ClassDataset.Build (Tensor := string)
                 (ClassDataset.Str "data/train/cat/*") 0 None) 20;
            DataLoader.Build
              (ClassDataset.Build (ClassDataset.Str "data/train/dog/*") 1 None) 20])
        0 (snd (seed_everything 42 0))
      = (Raise e, g').
Proof.
  split; [reflexivity|].
  apply (metaset_without_transform "data" "train" 5 15). reflexivity.
Defined.

(** ** Outcomes of the two splits *)

Section SplitOutcomes.

Context {X : Type}.
Variable a : args.
Variable SQ_x : list (list X).
Variable SQ_y : list (list Z).

Lemma for_each_repeat_negative (k : Z) (l : list Z) :
  k < 0 -> l <> [] ->
  for_each (fun i => torch.repeat [i] k) l = Raise RuntimeError.
Proof.
  intros Hk Hl. destruct l as [|i l]; [contradiction|]. simpl.
  unfold torch.repeat. apply Z.ltb_lt in Hk. now rewrite Hk.
Qed.

Lemma class_is_task_fails :
  n_classes a <= 0 \/ k_shot a < 0 \/ k_eval a < 0 ->
  get_support_query_batch_of_tasks_class_is_task_M_eq_N a SQ_x SQ_y
  = Raise RuntimeError.
Proof.
  intros Hbad. unfold get_support_query_batch_of_tasks_class_is_task_M_eq_N.
  destruct (Z_le_gt_dec (n_classes a) 0) as [Hn|Hn].
  - rewrite range_nonpos by exact Hn. reflexivity.
  - pose proof (range_nonempty (n_classes a)) as Hne.
    destruct (Z_lt_le_dec (k_shot a) 0) as [Hs|Hs].
    + rewrite for_each_repeat_negative; [reflexivity|lia|apply Hne; lia].
    + rewrite (for_each_repeat (k_shot a)) by exact Hs. cbn [bind].
      rewrite (stack_uniform (k_shot a));
        [|intros E; apply map_eq_nil in E; apply Hne; [lia|exact E]
         |now apply label_rows_uniform].
      cbn [bind].
      rewrite for_each_repeat_negative; [reflexivity|lia|apply Hne; lia].
Qed.


End SplitOutcomes.

(** X7. The two aggregation policies agree: whenever the class-as-task
    split returns its four tensors, the dataset-as-task split of the same
    episode returns each of them with its class axis and its example axis
    merged, whatever the shape of the episode. *)
Theorem split_policies_agree {X} (a : args)
    (SQ_x : list (list X)) (SQ_y : list (list Z))
    (S_x : list (list X)) (S_y : list (list Z))
    (Q_x : list (list X)) (Q_y : list (list Z)) :
  get_support_query_batch_of_tasks_class_is_task_M_eq_N a SQ_x SQ_y
  = Ok (S_x, S_y, Q_x, Q_y) ->
  get_support_query_set_for_data_set_is_task a SQ_x SQ_y
  = Ok (List.concat S_x, List.concat S_y, List.concat Q_x, List.concat Q_y).
Proof.
  intros E.
  assert (Hok : 0 < n_classes a /\ 0 <= k_shot a /\ 0 <= k_eval a).
  { destruct (Z_le_gt_dec (n_classes a) 0) as [Hn|Hn];
      [rewrite class_is_task_fails in E by auto; discriminate|].
    destruct (Z_lt_le_dec (k_shot a) 0) as [Hs|Hs];
      [rewrite class_is_task_fails in E by auto; discriminate|].
    destruct (Z_lt_le_dec (k_eval a) 0) as [He|He];
      [rewrite class_is_task_fails in E by auto; discriminate|].
    lia. }
  destruct Hok as (Hn & Hs & He).
  rewrite class_is_task_eq in E by assumption. injection E as <- <- <- <-.
  rewrite data_set_is_task_eq by assumption.
  now rewrite !flat_map_concat_map.
Qed.

Lemma split_policies_agree_witness :
  get_support_query_set_for_data_set_is_task demo_args demo_SQ_x demo_SQ_y
  = Ok (List.concat [["a"]; ["d"]], List.concat [[0]; [1]],
        List.concat [["b"; "c"]; ["e"; "f"]], List.concat [[0; 0]; [1; 1]])%string.
Proof.
  apply (split_policies_agree demo_args demo_SQ_x demo_SQ_y). reflexivity.
Defined.




Lemma len_slice_from_clamp {A} (k : Z) (l : list A) :
  len (slice_from k l) = len l - clamp k (len l).
Proof.
  unfold slice_from, len at 1. rewrite length_skipn.
  pose proof (len_nonneg l) as Hl. unfold len in *. unfold clamp.
  destruct (k <? 0) eqn:E; [apply Z.ltb_lt in E|apply Z.ltb_ge in E]; lia.
Qed.



(** * The three episodic loaders of an experiment *)

(** The fields of the experiment arguments that
    [prepare_data_for_few_shot_learning] reads: the counts that the splits
    read too, and the data root, the numbers of episodes of the three
    phases, the image size and the two loader options. *)
Record experiment_args : Set := Build_experiment_args {
  counts : args;
  data_root : string;
  episodes : Z;
  episodes_val : Z;
  episodes_test : Z;
  image_size : Z;
  n_workers : Z;
  pin_mem : bool
}.

(** The torchvision pipelines of the three phases: the training
    augmentation for an image size, and the evaluation pipeline that resizes
    to one size and centre-crops to another; both end in [ToTensor] and the
    normalisation. *)
Class Transforms (Image Tensor : Type) : Type := {
  train_transform : Z -> Image -> Tensor;
  eval_transform : Z -> Z -> Image -> Tensor
}.

(** A [DataLoader] over a meta-dataset that takes its index groups from a
    batch sampler. Construction rejects a negative number of workers. *)
Module MetaLoader.

Record self (Image Tensor : Type) : Type := Build {
  dataset : MetaSet_Dataset.self Image Tensor;
  batch_sampler : EpisodicSampler.self;
  num_workers : Z;
  pin_memory : bool
}.
Arguments Build {Image Tensor} dataset batch_sampler num_workers pin_memory.
Arguments dataset {Image Tensor} s.
Arguments batch_sampler {Image Tensor} s.
Arguments num_workers {Image Tensor} s.
Arguments pin_memory {Image Tensor} s.

Definition __init__ {Image Tensor} (dataset : MetaSet_Dataset.self Image Tensor)
    (num_workers : Z) (pin_memory : bool) (batch_sampler : EpisodicSampler.self)
  : result (self Image Tensor) :=
  if num_workers <? 0 then Raise ValueError
  else Ok (Build dataset batch_sampler num_workers pin_memory).

(** The built-in [len] on what a [__len__] method returns: a negative
    number is rejected, and so is one that does not fit an index. *)
Definition builtin_len (n : Z) : result Z :=
  if n <? 0 then Raise ValueError
  else if 2 ^ 63 <=? n then Raise OverflowError
  else Ok n.

(** [len(loader)] is [len] of its batch sampler. *)
Definition __len__ {Image Tensor} (s : self Image Tensor) : result Z :=
  builtin_len (EpisodicSampler.__len__ (batch_sampler s)).

End MetaLoader.

Definition prepare_data_for_few_shot_learning {Image Tensor}
    `{FileSystem Image} `{Transforms Image Tensor} (a : experiment_args)
  : result (MetaLoader.self Image Tensor * MetaLoader.self Image Tensor
            * MetaLoader.self Image Tensor) :=
  bind (MetaSet_Dataset.__init__ (data_root a) "train"
          (k_shot (counts a)) (k_eval (counts a))
          (Some (train_transform (image_size a)))) (fun metatrainset =>
  bind (MetaSet_Dataset.__init__ (data_root a) "val"
          (k_shot (counts a)) (k_eval (counts a))
          (Some (eval_transform (image_size a * 8 / 7) (image_size a))))
       (fun metavalset =>
  bind (MetaSet_Dataset.__init__ (data_root a) "test"
          (k_shot (counts a)) (k_eval (counts a))
          (Some (eval_transform (image_size a * 8 / 7) (image_size a))))
       (fun metatestset =>
  bind (EpisodicSampler.__init__ (MetaSet_Dataset.__len__ metatrainset)
          (n_classes (counts a)) (episodes a))
       (fun episode_sampler_metatrainset =>
  bind (EpisodicSampler.__init__ (MetaSet_Dataset.__len__ metavalset)
          (n_classes (counts a)) (episodes_val a))
       (fun episode_sampler_metavalset =>
  bind (EpisodicSampler.__init__ (MetaSet_Dataset.__len__ metatestset)
          (n_classes (counts a)) (episodes_test a))
       (fun episode_sampler_metatestset =>
  bind (MetaLoader.__init__ metatrainset (n_workers a) (pin_mem a)
          episode_sampler_metatrainset) (fun metatrainset_loader =>
  bind (MetaLoader.__init__ metavalset 4 false episode_sampler_metavalset)
       (fun metavalset_loader =>
  bind (MetaLoader.__init__ metatestset 4 false episode_sampler_metatestset)
       (fun metatestset_loader =>
  Ok (metatrainset_loader, metavalset_loader, metatestset_loader)))))))))).

(** [get_args_for_mini_imagenet], for the home directory that
    [expanduser] substitutes: the fields above. *)
Definition get_args_for_mini_imagenet (home : string) : experiment_args :=
  Build_experiment_args
    (Build_args 5 5 15)
    (home ++ "/automl-meta-learning/data/miniImagenet")
    5 4 3 84 4 true.

Section Prepared.

Context {Image Tensor : Type} `{FileSystem Image} `{Transforms Image Tensor}.

Lemma metaset_init_total (root phase : string) (k_shot k_eval : Z)
    (transform : option (Image -> Tensor)) (entries : list string) :
  listdir (os_path.join root [phase]) = Ok entries ->
  0 < k_shot + k_eval ->
  MetaSet_Dataset.__init__ root phase k_shot k_eval transform
  = Ok (MetaSet_Dataset.Build
          (sorted entries)
          (map (loader_of (os_path.join root [phase]) k_shot k_eval transform)
               (enumerate (sorted entries)))).
Proof.
  intros Elist Hpos. unfold MetaSet_Dataset.__init__. rewrite Elist. cbn [bind].
  rewrite (build_loaders_total (os_path.join root [phase])) with (1 := Hpos).
  - reflexivity.
  - intros idx name. apply paths_at_enumerated.
Qed.

Lemma metaset_len_sorted (entries : list string)
    (loaders : list (DataLoader.self Image Tensor)) :
  MetaSet_Dataset.__len__ (MetaSet_Dataset.Build (sorted entries) loaders)
  = len entries.
Proof.
  unfold MetaSet_Dataset.__len__, len. cbn [MetaSet_Dataset.labels].
  now rewrite (Permutation_length (sorted_perm entries)).
Qed.

(** The three loaders of a successful preparation. *)
Lemma prepare_inv (a : experiment_args)
    (tr va te : MetaLoader.self Image Tensor) :
  prepare_data_for_few_shot_learning a = Ok (tr, va, te) ->
  exists metatrainset metavalset metatestset,
    MetaSet_Dataset.__init__ (data_root a) "train"
      (k_shot (counts a)) (k_eval (counts a))
      (Some (train_transform (image_size a))) = Ok metatrainset
    /\ MetaSet_Dataset.__init__ (data_root a) "val"
         (k_shot (counts a)) (k_eval (counts a))
         (Some (eval_transform (image_size a * 8 / 7) (image_size a)))
       = Ok metavalset
    /\ MetaSet_Dataset.__init__ (data_root a) "test"
         (k_shot (counts a)) (k_eval (counts a))
         (Some (eval_transform (image_size a * 8 / 7) (image_size a)))
       = Ok metatestset
    /\ tr = MetaLoader.Build metatrainset
              (EpisodicSampler.Build (MetaSet_Dataset.__len__ metatrainset)
                                     (n_classes (counts a)) (episodes a))
              (n_workers a) (pin_mem a)
    /\ va = MetaLoader.Build metavalset
              (EpisodicSampler.Build (MetaSet_Dataset.__len__ metavalset)
                                     (n_classes (counts a)) (episodes_val a))
              4 false
    /\ te = MetaLoader.Build metatestset
              (EpisodicSampler.Build (MetaSet_Dataset.__len__ metatestset)
                                     (n_classes (counts a)) (episodes_test a))
              4 false
    /\ 0 <= n_workers a.
Proof.
  unfold prepare_data_for_few_shot_learning.
  destruct (MetaSet_Dataset.__init__ (data_root a) "train" _ _ _)
    as [metatrainset|]; [|discriminate]. cbn [bind].
  destruct (MetaSet_Dataset.__init__ (data_root a) "val" _ _ _)
    as [metavalset|]; [|discriminate]. cbn [bind].
  destruct (MetaSet_Dataset.__init__ (data_root a) "test" _ _ _)
    as [metatestset|]; [|discriminate]. cbn [bind].
  unfold EpisodicSampler.__init__. cbn [bind]. unfold MetaLoader.__init__.
  destruct (n_workers a <? 0) eqn:E; [discriminate|]. apply Z.ltb_ge in E.
  cbn [bind Z.ltb Z.compare]. intros [= <- <- <-].
  exists metatrainset, metavalset, metatestset. repeat split; auto.
Qed.

End Prepared.

(** A sampler over the length of a constructed meta-dataset yields class
    indices of that meta-dataset only. *)
Lemma sampler_over_metaset {G} `{TorchRNG G} {Image Tensor} `{FileSystem Image}
    (root phase : string) (k_shot k_eval : Z) (transform : option (Image -> Tensor))
    (ms : MetaSet_Dataset.self Image Tensor) (n_classes n_episode : Z) (g : G) :
  MetaSet_Dataset.__init__ root phase k_shot k_eval transform = Ok ms ->
  exists groups g',
    EpisodicSampler.to_list
      (EpisodicSampler.Build (MetaSet_Dataset.__len__ ms) n_classes n_episode) g
    = Some (groups, EpisodicSampler.Stopped, EpisodicSampler.Finished, g')
    /\ len groups = Z.max 0 n_episode
    /\ Forall (fun group =>
                 NoDup group
                 /\ Forall (fun idx =>
                              exists loader,
                                getitem (MetaSet_Dataset.episode_loader ms) idx
                                = Ok loader
                                /\ ClassDataset.label (DataLoader.dataset loader)
                                   = idx
                                /\ DataLoader.batch_size loader = k_shot + k_eval)
                           group)
              groups.
Proof.
  intros E.
  destruct (to_list_spec
              (EpisodicSampler.Build (MetaSet_Dataset.__len__ ms) n_classes n_episode) g)
    as (groups & g' & El & L & F); [apply len_nonneg|].
  exists groups, g'. split; [exact El|]. split; [exact L|].
  eapply Forall_impl; [|exact F]. cbn [EpisodicSampler.total_classes
    EpisodicSampler.n_classes]. intros group P. split.
  - eapply prefix_of_permutation_NoDup, P.
  - eapply Forall_impl; [|eapply prefix_of_permutation_bounds, P].
    intros idx Hidx.
    destruct (init_loader _ _ _ _ _ _ idx E Hidx) as (name & loader & _ & Eg & ->).
    eexists. split; [exact Eg|]. split; reflexivity.
Qed.

(** X10. The loaders that [prepare_data_for_few_shot_learning] returns fit
    together. Each sampler is built over the length of its own meta-dataset
    and for the episodes of its phase: iterating it yields as many groups as
    the phase has episodes (none for a negative number); every index of
    every group fetches a class of that meta-dataset, the class labelled
    with that very index, from a loader of batch size [k_shot + k_eval]; and
    no group holds an index twice. [len] of a loader is the number of
    episodes of its phase; it raises [ValueError] when that number is
    negative and [OverflowError] when it does not fit an index. *)
Theorem prepared_loaders_fit {G} `{TorchRNG G} {Image Tensor}
    `{FileSystem Image} `{Transforms Image Tensor}
    (a : experiment_args) (tr va te : MetaLoader.self Image Tensor) :
  prepare_data_for_few_shot_learning a = Ok (tr, va, te) ->
  forall loader n_episode (g : G),
    In (loader, n_episode)
       [(tr, episodes a); (va, episodes_val a); (te, episodes_test a)] ->
    (0 <= n_episode < 2 ^ 63 -> MetaLoader.__len__ loader = Ok n_episode)
    /\ (n_episode < 0 -> MetaLoader.__len__ loader = Raise ValueError)
    /\ (2 ^ 63 <= n_episode -> MetaLoader.__len__ loader = Raise OverflowError)
    /\ exists groups g',
        EpisodicSampler.to_list (MetaLoader.batch_sampler loader) g
        = Some (groups, EpisodicSampler.Stopped, EpisodicSampler.Finished, g')
        /\ len groups = Z.max 0 n_episode
        /\ Forall (fun group =>
                     NoDup group
                     /\ Forall (fun idx =>
                                  exists class_loader,
                                    getitem (MetaSet_Dataset.episode_loader
                                               (MetaLoader.dataset loader)) idx
                                    = Ok class_loader
                                    /\ ClassDataset.label
                                         (DataLoader.dataset class_loader) = idx
                                    /\ DataLoader.batch_size class_loader
                                       = k_shot (counts a) + k_eval (counts a))
                               group)
                  groups.
Proof.
  intros E.
  destruct (prepare_inv a tr va te E)
    as (mtr & mva & mte & Etr & Eva & Ete & -> & -> & -> & _).
  assert (Hlen : forall n, (0 <= n < 2 ^ 63 -> MetaLoader.builtin_len n = Ok n)
                           /\ (n < 0 -> MetaLoader.builtin_len n = Raise ValueError)
                           /\ (2 ^ 63 <= n ->
                               MetaLoader.builtin_len n = Raise OverflowError)).
  { intros n. unfold MetaLoader.builtin_len. split; [|split]; intros Hn.
    - destruct (n <? 0) eqn:E1; [apply Z.ltb_lt in E1; lia|].
      destruct (2 ^ 63 <=? n) eqn:E2; [apply Z.leb_le in E2; lia|]. reflexivity.
    - apply Z.ltb_lt in Hn. now rewrite Hn.
    - destruct (n <? 0) eqn:E1; [apply Z.ltb_lt in E1; lia|].
      apply Z.leb_le in Hn. now rewrite Hn. }
  intros loader n_episode g [[= <- <-]|[[= <- <-]|[[= <- <-]|[]]]];
    unfold MetaLoader.__len__, EpisodicSampler.__len__;
    cbn [MetaLoader.batch_sampler MetaLoader.dataset EpisodicSampler.n_episode];
    (split; [apply Hlen|split; [apply Hlen|split; [apply Hlen|]]]).
  - exact (sampler_over_metaset _ _ _ _ _ mtr _ _ g Etr).
  - exact (sampler_over_metaset _ _ _ _ _ mva _ _ g Eva).
  - exact (sampler_over_metaset _ _ _ _ _ mte _ _ g Ete).
Qed.

(** A tree with the three phases: two classes to train on, one to validate
    on and three to test on. No directory holds a file. *)
Definition demo_fs_phases : FileSystem string := {|
  listdir := fun p =>
    if String.eqb p "data/train" then Ok ["dog"; "cat"]%string
    else if String.eqb p "data/val" then Ok ["owl"]%string
    else if String.eqb p "data/test" then Ok ["fox"; "elk"; "bee"]%string
    else Raise (OSError p);
  glob := fun _ => [];
  open_rgb := fun p => Raise (OSError p)
|}.

(** Pipelines that leave the image as it is. *)
Definition demo_transforms : Transforms string string := {|
  train_transform := fun _ image => image;
  eval_transform := fun _ _ image => image
|}.

Definition demo_experiment : experiment_args :=
  Build_experiment_args (Build_args 2 5 15) "data" 5 4 3 84 4 true.

Lemma prepared_loaders_fit_witness :
  exists tr va te,
    @prepare_data_for_few_shot_learning string string demo_fs_phases
       demo_transforms demo_experiment = Ok (tr, va, te)
    /\ MetaLoader.__len__ tr = Ok 5
    /\ exists groups g',
        EpisodicSampler.to_list (MetaLoader.batch_sampler tr)
          (snd (seed_everything 42 0))
        = Some (groups, EpisodicSampler.Stopped, EpisodicSampler.Finished, g')
        /\ len groups = 5.
Proof.
  destruct (@prepare_data_for_few_shot_learning string string demo_fs_phases
              demo_transforms demo_experiment) as [[[tr va] te]|] eqn:E;
    [|vm_compute in E; discriminate].
  exists tr, va, te. split; [reflexivity|].
  destruct (@prepared_loaders_fit Z lcg_rng string string demo_fs_phases
              demo_transforms demo_experiment tr va te E tr 5
              (snd (seed_everything 42 0)))
    as (Hlen & _ & _ & groups & g' & El & L & _); [now left|].
  split; [apply Hlen; lia|]. exists groups, g'. split; [exact El|exact L].
Defined.

(** With a negative number of episodes for training the loaders are made
    all the same, and [len] of the training loader raises. *)
Example prepared_with_negative_episodes :
  exists tr va te,
    @prepare_data_for_few_shot_learning string string demo_fs_phases
       demo_transforms
       (Build_experiment_args (Build_args 2 5 15) "data" (-1) 4 3 84 4 true)
    = Ok (tr, va, te)
    /\ MetaLoader.__len__ tr = Raise ValueError
    /\ MetaLoader.__len__ va = Ok 4.
Proof. do 3 eexists. split; [reflexivity|]. split; reflexivity. Qed.

(** X11. When the three phase directories can be listed and the batch size
    [k_shot + k_eval] is positive, preparation succeeds if the number of
    workers is not negative, and every meta-dataset has as many classes as
    its directory has entries; with a negative number of workers it raises
    [ValueError]. The phases are set up in the order train, val, test, and
    the first directory that cannot be listed makes preparation raise the
    error of that listing. *)
Theorem prepare_outcome {Image Tensor} `{FileSystem Image} `{Transforms Image Tensor}
    (a : experiment_args) :
  (forall entries_train entries_val entries_test,
      listdir (os_path.join (data_root a) ["train"%string]) = Ok entries_train ->
      listdir (os_path.join (data_root a) ["val"%string]) = Ok entries_val ->
      listdir (os_path.join (data_root a) ["test"%string]) = Ok entries_test ->
      0 < k_shot (counts a) + k_eval (counts a) ->
      (0 <= n_workers a ->
       exists tr va te,
         prepare_data_for_few_shot_learning a = Ok (tr, va, te)
         /\ MetaSet_Dataset.__len__ (MetaLoader.dataset tr) = len entries_train
         /\ MetaSet_Dataset.__len__ (MetaLoader.dataset va) = len entries_val
         /\ MetaSet_Dataset.__len__ (MetaLoader.dataset te) = len entries_test)
      /\ (n_workers a < 0 ->
          prepare_data_for_few_shot_learning a = Raise ValueError))
  /\ (forall e,
        listdir (os_path.join (data_root a) ["train"%string]) = Raise e ->
        prepare_data_for_few_shot_learning a = Raise e)
  /\ (forall entries_train e,
        listdir (os_path.join (data_root a) ["train"%string]) = Ok entries_train ->
        0 < k_shot (counts a) + k_eval (counts a) ->
        listdir (os_path.join (data_root a) ["val"%string]) = Raise e ->
        prepare_data_for_few_shot_learning a = Raise e)
  /\ (forall entries_train entries_val e,
        listdir (os_path.join (data_root a) ["train"%string]) = Ok entries_train ->
        listdir (os_path.join (data_root a) ["val"%string]) = Ok entries_val ->
        0 < k_shot (counts a) + k_eval (counts a) ->
        listdir (os_path.join (data_root a) ["test"%string]) = Raise e ->
        prepare_data_for_few_shot_learning a = Raise e).
Proof.
  assert (Hraise : forall phase e transform,
             listdir (os_path.join (data_root a) [phase]) = Raise e ->
             MetaSet_Dataset.__init__ (Tensor := Tensor) (data_root a) phase
               (k_shot (counts a)) (k_eval (counts a)) transform = Raise e).
  { intros phase e transform E. unfold MetaSet_Dataset.__init__. now rewrite E. }
  split; [|split; [|split]].
  - intros entries_train entries_val entries_test Etr Eva Ete Hpos.
    unfold prepare_data_for_few_shot_learning.
    rewrite (metaset_init_total _ "train" _ _ _ entries_train Etr Hpos).
    rewrite (metaset_init_total _ "val" _ _ _ entries_val Eva Hpos).
    rewrite (metaset_init_total _ "test" _ _ _ entries_test Ete Hpos).
    cbn [bind]. unfold EpisodicSampler.__init__. cbn [bind].
    unfold MetaLoader.__init__. split.
    + intros Hw. destruct (n_workers a <? 0) eqn:E; [apply Z.ltb_lt in E; lia|].
      cbn [bind Z.ltb Z.compare]. do 3 eexists. split; [reflexivity|].
      cbn [MetaLoader.dataset]. now rewrite !metaset_len_sorted.
    + intros Hw. apply Z.ltb_lt in Hw. now rewrite Hw.
  - intros e E. unfold prepare_data_for_few_shot_learning.
    now rewrite (Hraise "train"%string e _ E).
  - intros entries_train e Etr Hpos E. unfold prepare_data_for_few_shot_learning.
    rewrite (metaset_init_total _ "train" _ _ _ entries_train Etr Hpos). cbn [bind].
    now rewrite (Hraise "val"%string e _ E).
  - intros entries_train entries_val e Etr Eva Hpos E.
    unfold prepare_data_for_few_shot_learning.
    rewrite (metaset_init_total _ "train" _ _ _ entries_train Etr Hpos).
    rewrite (metaset_init_total _ "val" _ _ _ entries_val Eva Hpos). cbn [bind].
    now rewrite (Hraise "test"%string e _ E).
Qed.

(** On the tree of the first examples, which has no [data/test],
    preparation raises the error of listing that directory. *)
Example prepare_without_test_directory :
  @prepare_data_for_few_shot_learning string string demo_fs demo_transforms
     demo_experiment
  = Raise (OSError "data/test").
Proof. vm_compute. reflexivity. Qed.

(** * The class splits of the Delaunay dataset

    [create_your_splits] of [uutils/torch_uu/dataset/delaunay_uu.py]. The
    helpers it imports from [uutils], [expanduser] and
    [move_folders_recursively], and the file system are parameters; paths
    are strings and [div] is the [/] of [pathlib]. *)

Module delaunay_uu.

(** How a call ends when it does not return: a failed [assert], or an
    exception. *)
Inductive failure : Set :=
| AssertionError
| Uncaught (e : exn).

Inductive outcome (A : Type) : Type :=
| Done (a : A)
| Failed (f : failure).
Arguments Done {A} a.
Arguments Failed {A} f.

(** The slicing of the sorted class directories into the three splits. *)
Definition split_names (dirnames : list string)
  : list string * list string * list string :=
  let sorted_dirnames := sorted dirnames in
  let train_val := slice_to 42 sorted_dirnames in
  let train := slice_to 34 train_val in
  let val := slice_from 34 train_val in
  let test := slice_from 42 sorted_dirnames in
  (train, val, test).

Section CreateSplits.

(** The state of the file system. *)
Context {W : Type}.
Variable expanduser : string -> string.
Variable div : string -> string -> string.
(** The first triple that [os.walk] yields for a directory, without its
    [dirpath]: the names of its subdirectories and of its files; [None]
    when [os.walk] yields nothing. *)
Variable walk_top : string -> W -> option (list string * list string).
Variable move_folders_recursively : string -> list string -> W -> result unit * W.

Definition create_your_splits (path_to_all_data path_for_splits : string) (w : W)
  : outcome unit * W :=
  let path_to_all_data := expanduser path_to_all_data in
  match walk_top path_to_all_data w with
  | None => (Failed (Uncaught StopIteration), w)
  | Some (dirnames, filenames) =>
      if negb (len dirnames =? 53) then (Failed AssertionError, w)
      else
        let '(train, val, test) := split_names dirnames in
        if negb (len train =? 34) then (Failed AssertionError, w)
        else if negb (len val =? 8) then (Failed AssertionError, w)
        else if negb (len test =? 11) then (Failed AssertionError, w)
        else
          let path_for_splits := expanduser path_for_splits in
          match move_folders_recursively
                  (div path_for_splits "delauny_train_split_dir") train w with
          | (Raise e, w) => (Failed (Uncaught e), w)
          | (Ok _, w) =>
              match move_folders_recursively
                      (div path_for_splits "delauny_validation_split_dir") val w with
              | (Raise e, w) => (Failed (Uncaught e), w)
              | (Ok _, w) =>
                  match move_folders_recursively
                          (div path_for_splits "delauny_test_split_dir") test w with
                  | (Raise e, w) => (Failed (Uncaught e), w)
                  | (Ok _, w) => (Done tt, w)
                  end
              end
          end
  end.

End CreateSplits.

End delaunay_uu.

(** ** Properties of the splits *)

Lemma slice_from_to_middle {A} (j k : Z) (l : list A) :
  slice_to j (slice_to k l) ++ slice_from j (slice_to k l) ++ slice_from k l = l.
Proof. rewrite app_assoc, slice_to_from. apply slice_to_from. Qed.

Lemma StronglySorted_app_inv {A} (R : A -> A -> Prop) (l1 l2 : list A) :
  StronglySorted R (l1 ++ l2) ->
  StronglySorted R l1 /\ StronglySorted R l2
  /\ forall x y, In x l1 -> In y l2 -> R x y.
Proof.
  induction l1 as [|a l1 IH]; simpl; intros S.
  - repeat split; [constructor|exact S|contradiction].
  - inversion S as [|? ? S' Ha]; subst. destruct (IH S') as (S1 & S2 & Hx).
    rewrite Forall_forall in Ha. repeat split; auto.
    + constructor; [exact S1|]. apply Forall_forall. intros x Hin.
      apply Ha, in_or_app. now left.
    + intros x y [<-|Hin] Hy; [apply Ha, in_or_app; now right|now apply Hx].
Qed.

Lemma split_names_spec (dirnames : list string) :
  len dirnames = 53 ->
  exists train val test,
    delaunay_uu.split_names dirnames = (train, val, test)
    /\ len train = 34 /\ len val = 8 /\ len test = 11
    /\ train ++ val ++ test = sorted dirnames.
Proof.
  intros Hlen. unfold delaunay_uu.split_names.
  assert (Hs : len (sorted dirnames) = 53).
  { unfold len in *. now rewrite (Permutation_length (sorted_perm dirnames)). }
  assert (H42 : len (slice_to 42 (sorted dirnames)) = 42).
  { rewrite len_slice_to, Hs. reflexivity. }
  do 3 eexists. split; [reflexivity|]. repeat split.
  - rewrite len_slice_to, H42. reflexivity.
  - rewrite len_slice_from_clamp, H42. reflexivity.
  - rewrite len_slice_from_clamp, Hs. reflexivity.
  - apply slice_from_to_middle.
Qed.

(** X12. [create_your_splits] on a directory that [os.walk] can enter. If
    it does not hold exactly 53 subdirectories the first [assert] fails
    and nothing is moved. If it does, no [assert] fails: the names sorted
    ascending are cut into a train split of 34, a validation split of 8 and
    a test split of 11 that together are all the names, each in exactly one
    split, every train name before every validation name and every
    validation name before every test name; and once the three moves
    succeed in that order the call returns. *)
Theorem create_your_splits_partition {W : Type}
    (expanduser : string -> string) (div : string -> string -> string)
    (walk_top : string -> W -> option (list string * list string))
    (move_folders_recursively : string -> list string -> W -> result unit * W)
    (path_to_all_data path_for_splits : string) (w : W)
    (dirnames filenames : list string) :
  walk_top (expanduser path_to_all_data) w = Some (dirnames, filenames) ->
  (len dirnames <> 53 ->
   delaunay_uu.create_your_splits expanduser div walk_top move_folders_recursively
     path_to_all_data path_for_splits w
   = (delaunay_uu.Failed delaunay_uu.AssertionError, w))
  /\ (len dirnames = 53 ->
      exists train val test,
        delaunay_uu.split_names dirnames = (train, val, test)
        /\ len train = 34 /\ len val = 8 /\ len test = 11
        /\ train ++ val ++ test = sorted dirnames
        /\ Permutation (train ++ val ++ test) dirnames
        /\ (NoDup dirnames -> NoDup (train ++ val ++ test))
        /\ (forall x y, In x train -> In y val -> name_le x y)
        /\ (forall x y, In x val -> In y test -> name_le x y)
        /\ (forall r w',
              delaunay_uu.create_your_splits expanduser div walk_top
                move_folders_recursively path_to_all_data path_for_splits w
              = (r, w') ->
              r <> delaunay_uu.Failed delaunay_uu.AssertionError)
        /\ (forall w1 w2 w3,
              move_folders_recursively
                (div (expanduser path_for_splits) "delauny_train_split_dir"%string)
                train w = (Ok tt, w1) ->
              move_folders_recursively
                (div (expanduser path_for_splits) "delauny_validation_split_dir"%string)
                val w1 = (Ok tt, w2) ->
              move_folders_recursively
                (div (expanduser path_for_splits) "delauny_test_split_dir"%string)
                test w2 = (Ok tt, w3) ->
              delaunay_uu.create_your_splits expanduser div walk_top
                move_folders_recursively path_to_all_data path_for_splits w
              = (delaunay_uu.Done tt, w3))).
Proof.
  intros Ewalk. split.
  - intros Hlen. unfold delaunay_uu.create_your_splits. rewrite Ewalk.
    apply Z.eqb_neq in Hlen. now rewrite Hlen.
  - intros Hlen.
    destruct (split_names_spec dirnames Hlen)
      as (train & val & test & Es & Ltr & Lva & Lte & Eapp).
    exists train, val, test. split; [exact Es|].
    assert (P : Permutation (train ++ val ++ test) dirnames)
      by (rewrite Eapp; apply sorted_perm).
    pose proof (sorted_StronglySorted dirnames) as SS. rewrite <- Eapp in SS.
    apply StronglySorted_app_inv in SS as (_ & SS & Htv).
    apply StronglySorted_app_inv in SS as (_ & _ & Hvt).
    assert (Hrun : delaunay_uu.create_your_splits expanduser div walk_top
                     move_folders_recursively path_to_all_data path_for_splits w
                   = match move_folders_recursively
                             (div (expanduser path_for_splits) "delauny_train_split_dir"%string)
                             train w with
                     | (Raise e, w) => (delaunay_uu.Failed (delaunay_uu.Uncaught e), w)
                     | (Ok _, w) =>
                         match move_folders_recursively
                                 (div (expanduser path_for_splits)
                                      "delauny_validation_split_dir"%string) val w with
                         | (Raise e, w) =>
                             (delaunay_uu.Failed (delaunay_uu.Uncaught e), w)
                         | (Ok _, w) =>
                             match move_folders_recursively
                                     (div (expanduser path_for_splits)
                                          "delauny_test_split_dir"%string) test w with
                             | (Raise e, w) =>
                                 (delaunay_uu.Failed (delaunay_uu.Uncaught e), w)
                             | (Ok _, w) => (delaunay_uu.Done tt, w)
                             end
                         end
                     end).
    { unfold delaunay_uu.create_your_splits. rewrite Ewalk, Hlen, Es, Ltr, Lva, Lte.
      reflexivity. }
    repeat split; auto.
    + intros ND. apply (Permutation_NoDup (Permutation_sym P) ND).
    + intros x y Hx Hy. apply Htv; [exact Hx|]. apply in_or_app. now left.
    + intros r w' E. rewrite Hrun in E.
      destruct (move_folders_recursively _ train w) as [[[]|e1] w1];
        [|injection E as <- _; discriminate].
      destruct (move_folders_recursively _ val w1) as [[[]|e2] w2];
        [|injection E as <- _; discriminate].
      destruct (move_folders_recursively _ test w2) as [[[]|e3] w3];
        injection E as <- _; discriminate.
    + intros w1 w2 w3 E1 E2 E3. now rewrite Hrun, E1, E2, E3.
Qed.

(** The 53 artists of the dataset, the [classes] of [delaunay_uu.py]. *)
Definition delaunay_classes : list string :=
  ["Ad Reinhardt"; "Alberto Magnelli"; "Alfred Manessier"; "Anthony Caro";
   "Antoine Pevsner"; "Auguste Herbin"; "Aurélie Nemours"; "Berto Lardera";
   "Charles Lapicque"; "Charmion Von Wiegand"; "César Domela"; "Ellsworth Kelly";
   "Emilio Vedova"; "Fernand Léger"; "František Kupka"; "Franz Kline";
   "François Morellet"; "Georges Mathieu"; "Georges Vantongerloo";
   "Gustave Singier"; "Hans Hartung"; "Jean Arp"; "Jean Bazaine"; "Jean Degottex";
   "Jean Dubuffet"; "Jean Fautrier"; "Jean Gorin"; "Joan Mitchell";
   "Josef Albers"; "Kenneth Noland"; "Leon Polk Smith"; "Lucio Fontana";
   "László Moholy-Nagy"; "Léon Gischia"; "Maria Helena Vieira da Silva";
   "Mark Rothko"; "Morris Louis"; "Naum Gabo"; "Olle Bærtling"; "Otto Freundlich";
   "Pierre Soulages"; "Pierre Tal Coat"; "Piet Mondrian"; "Richard Paul Lohse";
   "Roger Bissière"; "Sam Francis"; "Sonia and Robert Delaunay"; "Sophie Taeuber-Arp";
   "Theo van Doesburg"; "Vassily Kandinsky"; "Victor Vasarely"; "Yves Klein";
   "Étienne Béothy"]%string.

(** A file system state that records the moves asked of it. *)
Definition recorded_move (root : string) (dirnames : list string)
    (w : list (string * list string))
  : result unit * list (string * list string) :=
  (Ok tt, w ++ [(root, dirnames)]).

Lemma create_your_splits_partition_witness :
  exists train val test,
    delaunay_uu.split_names (rev delaunay_classes) = (train, val, test)
    /\ train ++ val ++ test = sorted (rev delaunay_classes)
    /\ delaunay_uu.create_your_splits
         (fun p => p) (fun p q => (p ++ "/" ++ q)%string)
         (fun _ _ => Some (rev delaunay_classes, []))
         recorded_move "all" "splits" []
       = (delaunay_uu.Done tt,
          [("splits/delauny_train_split_dir"%string, train);
           ("splits/delauny_validation_split_dir"%string, val);
           ("splits/delauny_test_split_dir"%string, test)]).
Proof.
  destruct (create_your_splits_partition
              (fun p => p) (fun p q => (p ++ "/" ++ q)%string)
              (fun _ (_ : list (string * list string)) =>
                 Some (rev delaunay_classes, []))
              recorded_move "all" "splits" [] (rev delaunay_classes) [] eq_refl)
    as [_ Hok].
  destruct Hok as (train & val & test & Es & _ & _ & _ & Eapp & _ & _ & _ & _ & _ & Hrun);
    [vm_compute; reflexivity|].
  exists train, val, test. split; [exact Es|]. split; [exact Eapp|].
  eapply Hrun; reflexivity.
Defined.

(** * Making a dictionary printable as JSON

    [_to_json_dict_with_strings] and [to_json] of [uutils/__init__.py]. *)

Module json_uu.

Section Values.

(** The keys of dictionaries. *)
Context {K : Type}.

(** A Python value as the two functions see it: an object whose type is
    exactly [dict], with its items in order; a [str]; or any other object
    (an instance, a class, a mapping proxy, an instance of a subclass of
    [dict]), given by what [str] makes of it and by the value of its
    [__dict__] attribute, if it has one. *)
#[local] Set Warnings "-register-all".
Inductive value : Type :=
| Dict (items : list (K * value))
| Str (s : string)
| Obj (repr : string) (attrs : option value).

Fixpoint _to_json_dict_with_strings (dictionary : value) : value :=
  match dictionary with
  | Dict items =>
      Dict (map (fun kv => match kv with
                           | (k, v) => (k, _to_json_dict_with_strings v)
                           end) items)
  | Str s => Str s
  | Obj repr _ => Str repr
  end.

Inductive error : Set := AttributeError.

(** A [dict] is copied; of anything else the [__dict__] is taken, whatever
    it is, and a [str] has none. *)
Definition to_json (dic : value) : error + value :=
  match dic with
  | Dict items => inr (_to_json_dict_with_strings (Dict items))
  | Obj _ (Some attrs) => inr (_to_json_dict_with_strings attrs)
  | Obj _ None => inl AttributeError
  | Str _ => inl AttributeError
  end.

(** Every leaf is a string. *)
Fixpoint only_strings (v : value) : Prop :=
  match v with
  | Dict items =>
      (fix all (l : list (K * value)) : Prop :=
         match l with
         | [] => True
         | (_, v) :: l' => only_strings v /\ all l'
         end) items
  | Str _ => True
  | Obj _ _ => False
  end.

(** The key paths from the root to the leaves, in order. *)
Fixpoint paths (v : value) : list (list K) :=
  match v with
  | Dict items =>
      flat_map (fun kv => match kv with
                          | (k, v) => map (cons k) (paths v)
                          end) items
  | Str _ => [[]]
  | Obj _ _ => [[]]
  end.

(** The type of a value is exactly [dict]. *)
Definition is_dict (v : value) : Prop :=
  match v with
  | Dict _ => True
  | _ => False
  end.

(** Induction over values, with the items of a dictionary. *)
Lemma value_induction (P : value -> Prop) :
  (forall items, Forall (fun kv => P (snd kv)) items -> P (Dict items)) ->
  (forall s, P (Str s)) ->
  (forall repr attrs, P (Obj repr attrs)) ->
  forall v, P v.
Proof.
  intros HD HS HO.
  fix IH 1. intros [items|s|repr attrs]; [|apply HS|apply HO].
  apply HD. induction items as [|[k v] items IHitems]; constructor.
  - apply IH.
  - exact IHitems.
Qed.

Lemma only_strings_Dict (items : list (K * value)) :
  only_strings (Dict items) <-> Forall (fun kv => only_strings (snd kv)) items.
Proof.
  induction items as [|[k v] items IH]; simpl.
  - split; [constructor|trivial].
  - split.
    + intros [Hv Hl]. constructor; [exact Hv|]. now apply IH.
    + intros F. inversion F; subst. split; [assumption|]. now apply IH.
Qed.

End Values.

End json_uu.

(** X13. [_to_json_dict_with_strings] turns every leaf of a nested
    dictionary into a string and nothing else: the result has strings for
    leaves, it has the same keys along the same paths (the keys themselves
    are left as they are), a value whose leaves are strings already is
    returned unchanged, and applying the function twice is applying it once.
    [to_json] raises [AttributeError] on a string and on an object without
    [__dict__]. What it returns has strings for leaves. It is a dictionary
    when the argument is a [dict], or an object whose [__dict__] is one, and
    is then a fixed point of [to_json]; for an object whose [__dict__] is of
    another type it is the string of that [__dict__], on which [to_json]
    raises. *)
Theorem to_json_leaves_are_strings {K : Type} (v : @json_uu.value K) :
  json_uu.only_strings (json_uu._to_json_dict_with_strings v)
  /\ json_uu.paths (json_uu._to_json_dict_with_strings v) = json_uu.paths v
  /\ (json_uu.only_strings v -> json_uu._to_json_dict_with_strings v = v)
  /\ json_uu._to_json_dict_with_strings (json_uu._to_json_dict_with_strings v)
     = json_uu._to_json_dict_with_strings v
  /\ (forall s, json_uu.to_json (json_uu.Str s : @json_uu.value K)
                = inl json_uu.AttributeError)
  /\ (forall repr, json_uu.to_json (json_uu.Obj repr None : @json_uu.value K)
                   = inl json_uu.AttributeError)
  /\ (forall r,
        json_uu.to_json v = inr r ->
        json_uu.only_strings r
        /\ (json_uu.is_dict r -> json_uu.to_json r = inr r)
        /\ (~ json_uu.is_dict r -> json_uu.to_json r = inl json_uu.AttributeError)
        /\ (json_uu.is_dict r <->
            json_uu.is_dict v
            \/ exists repr attrs,
                 v = json_uu.Obj repr (Some attrs) /\ json_uu.is_dict attrs)).
Proof.
  assert (Hall : forall v : @json_uu.value K,
             json_uu.only_strings (json_uu._to_json_dict_with_strings v)
             /\ json_uu.paths (json_uu._to_json_dict_with_strings v) = json_uu.paths v
             /\ (json_uu.only_strings v -> json_uu._to_json_dict_with_strings v = v)).
  { induction v0 as [items IH|s|repr attrs] using json_uu.value_induction.
    - cbn [json_uu._to_json_dict_with_strings]. split; [|split].
      + apply json_uu.only_strings_Dict, Forall_map.
        eapply Forall_impl; [|exact IH]. intros [k x] Hx. simpl in *. tauto.
      + cbn [json_uu.paths]. induction IH as [|[k x] items Hx _ IHitems];
          simpl in *; [reflexivity|].
        destruct Hx as (_ & -> & _). now rewrite IHitems.
      + intros Hs. apply json_uu.only_strings_Dict in Hs. f_equal.
        induction IH as [|[k x] items Hx _ IHitems]; simpl; [reflexivity|].
        inversion Hs as [|? ? Hsx Hsitems]; subst. simpl in Hx, Hsx.
        destruct Hx as (_ & _ & Hx). rewrite (Hx Hsx).
        f_equal. now apply IHitems.
    - simpl. auto.
    - simpl. split; [trivial|]. split; [reflexivity|]. contradiction. }
  assert (Hidem : forall v : @json_uu.value K,
             json_uu._to_json_dict_with_strings (json_uu._to_json_dict_with_strings v)
             = json_uu._to_json_dict_with_strings v).
  { intros x. apply Hall, Hall. }
  assert (Hshape : forall x : @json_uu.value K,
             json_uu.is_dict (json_uu._to_json_dict_with_strings x)
             <-> json_uu.is_dict x).
  { intros [items|s|repr attrs]; simpl; tauto. }
  destruct (Hall v) as (H1 & H2 & H3).
  split; [exact H1|]. split; [exact H2|]. split; [exact H3|].
  split; [apply Hidem|]. split; [reflexivity|]. split; [reflexivity|].
  intros r Er.
  assert (Hr : exists x,
             r = json_uu._to_json_dict_with_strings x
             /\ (json_uu.is_dict x <->
                 json_uu.is_dict v
                 \/ exists repr attrs,
                      v = json_uu.Obj repr (Some attrs) /\ json_uu.is_dict attrs)).
  { destruct v as [items|s|repr [attrs|]]; simpl in Er; try discriminate;
      injection Er as <-.
    - exists (json_uu.Dict items). split; [reflexivity|]. simpl. tauto.
    - exists attrs. split; [reflexivity|]. split.
      + intros Hd. right. now exists repr, attrs.
      + intros [[]|(repr' & attrs' & [= _ <-] & Hd)]. exact Hd. }
  destruct Hr as (x & -> & Hx). split; [apply Hall|].
  split; [|split].
  - intros Hd. apply Hshape in Hd. destruct x as [items|s|repr attrs];
      try contradiction.
    cbn [json_uu._to_json_dict_with_strings json_uu.to_json]. f_equal.
    exact (Hidem (json_uu.Dict items)).
  - intros Hnd. destruct x as [items|s|repr attrs]; simpl in *;
      [tauto|reflexivity|reflexivity].
  - rewrite Hshape. exact Hx.
Qed.

(** A class object: its [__dict__] is a mapping proxy, which is no [dict],
    so [to_json] returns its string, and [to_json] of that raises. *)
Example to_json_of_a_class :
  json_uu.to_json
    (json_uu.Obj (K := string) "<class 'Net'>"
       (Some (json_uu.Obj "mappingproxy({'depth': 3})" None)))
  = inr (json_uu.Str "mappingproxy({'depth': 3})")
  /\ json_uu.to_json (json_uu.Str (K := string) "mappingproxy({'depth': 3})")
     = inl json_uu.AttributeError.
Proof. split; reflexivity. Qed.

(** * The job identifier of a cluster run

    [load_cluster_jobids_to] of [uutils/__init__.py]. The environment, the
    host name, the process id and the built-in [int] on strings are
    parameters; [int_] is [None] where [int] raises [ValueError]. *)

From Stdlib Require DecimalString.

Module cluster.

(** [args.jobid] is an [int], or a [str]. *)
Inductive job : Set :=
| JobInt (n : Z)
| JobStr (s : string).

(** The five attributes that the function sets. *)
Record ids : Set := Build {
  jobid : job;
  slurm_jobid : Z;
  slurm_array_task_id : Z;
  condor_jobid : Z;
  hostname : string
}.

(** [str] of an [int]: its decimal digits, after a minus sign when it is
    negative. *)
Definition str_int (n : Z) : string :=
  DecimalString.NilZero.string_of_int (Z.to_int n).

Definition str_job (j : job) : string :=
  match j with
  | JobInt n => str_int n
  | JobStr s => s
  end.

(** [needle in hay] on strings. *)
Fixpoint contains (needle hay : string) : bool :=
  String.prefix needle hay
  || match hay with
     | EmptyString => false
     | String _ hay' => contains needle hay'
     end.

Section Load.

Variable environ : string -> option string.
Variable int_ : string -> option Z.
Variable gethostname : string.
Variable getpid : Z.

(** The last statement: on a [dgx] host the process id is appended. *)
Definition add_pid (a : ids) : ids :=
  if contains "dgx" gethostname
  then Build (JobStr (str_job (jobid a) ++ "_pid_" ++ str_int getpid))
             (slurm_jobid a) (slurm_array_task_id a) (condor_jobid a) (hostname a)
  else a.

(** The function, as the result of the call together with the attributes
    as the call leaves them, also when it raises. *)
Definition load_cluster_jobids_to : result unit * ids :=
  let a := Build (JobInt (-1)) (-1) (-1) (-1) gethostname in
  match
    match environ "SLURM_JOBID" with
    | Some v =>
        match int_ v with
        | Some n =>
            Ok (Build (JobInt n) n (slurm_array_task_id a) (condor_jobid a)
                      (hostname a))
        | None => Raise ValueError
        end
    | None => Ok a
    end
  with
  | Raise e => (Raise e, a)
  | Ok a =>
      match
        match environ "SLURM_ARRAY_TASK_ID" with
        | Some v =>
            match int_ v with
            | Some n =>
                Ok (Build (jobid a) (slurm_jobid a) n (condor_jobid a) (hostname a))
            | None => Raise ValueError
            end
        | None => Ok a
        end
      with
      | Raise e => (Raise e, a)
      | Ok a =>
          match
            match environ "CONDOR_JOB_ID" with
            | Some v =>
                match int_ v with
                | Some n =>
                    Ok (Build (JobInt n) (slurm_jobid a) (slurm_array_task_id a) n
                              (hostname a))
                | None => Raise ValueError
                end
            | None => Ok a
            end
          with
          | Raise e => (Raise e, a)
          | Ok a =>
              let a :=
                match environ "PBS_JOBID" with
                | Some v =>
                    Build (match int_ v with
                           | Some n => JobInt n
                           | None => JobStr v
                           end)
                          (slurm_jobid a) (slurm_array_task_id a) (condor_jobid a)
                          (hostname a)
                | None => a
                end in
              (Ok tt, add_pid a)
          end
      end
  end.

(** A variable of the environment is an integer when it is set. *)
Definition integer_if_set (name : string) : Prop :=
  forall v, environ name = Some v -> exists n, int_ v = Some n.

(** The integer a set variable stands for, and [-1] for an unset one. *)
Definition int_or_unset (name : string) : Z :=
  match environ name with
  | Some v => match int_ v with Some n => n | None => -1 end
  | None => -1
  end.

(** The job identifier before the process id is appended: the PBS one, else
    the Condor one, else the Slurm one, else [-1]. *)
Definition chosen_job : job :=
  match environ "PBS_JOBID" with
  | Some v => match int_ v with Some n => JobInt n | None => JobStr v end
  | None =>
      match environ "CONDOR_JOB_ID" with
      | Some _ => JobInt (int_or_unset "CONDOR_JOB_ID")
      | None => JobInt (int_or_unset "SLURM_JOBID")
      end
  end.

End Load.

End cluster.

(** X14. [load_cluster_jobids_to]. When each of [SLURM_JOBID],
    [SLURM_ARRAY_TASK_ID] and [CONDOR_JOB_ID] that is set is an integer, the
    call returns; the three numeric attributes are the integers of their
    variables, [-1] for an unset one; and [jobid] is taken from
    [PBS_JOBID] if that is set (as an integer, or as the string itself when
    it is not one: a malformed [PBS_JOBID] raises nothing), else from
    [CONDOR_JOB_ID], else from [SLURM_JOBID], else it is [-1]; on a host
    whose name contains [dgx] it is that identifier as a string followed by
    [_pid_] and the process id. When one of the three variables is set and
    is not an integer, the call raises [ValueError]. *)
Theorem cluster_jobid_precedence
    (environ : string -> option string) (int_ : string -> option Z)
    (gethostname : string) (getpid : Z) :
  (cluster.integer_if_set environ int_ "SLURM_JOBID" ->
   cluster.integer_if_set environ int_ "SLURM_ARRAY_TASK_ID" ->
   cluster.integer_if_set environ int_ "CONDOR_JOB_ID" ->
   cluster.load_cluster_jobids_to environ int_ gethostname getpid
   = (Ok tt,
      cluster.add_pid gethostname getpid
        (cluster.Build
           (cluster.chosen_job environ int_)
           (cluster.int_or_unset environ int_ "SLURM_JOBID")
           (cluster.int_or_unset environ int_ "SLURM_ARRAY_TASK_ID")
           (cluster.int_or_unset environ int_ "CONDOR_JOB_ID")
           gethostname)))
  /\ (~ (cluster.integer_if_set environ int_ "SLURM_JOBID"
         /\ cluster.integer_if_set environ int_ "SLURM_ARRAY_TASK_ID"
         /\ cluster.integer_if_set environ int_ "CONDOR_JOB_ID") ->
      fst (cluster.load_cluster_jobids_to environ int_ gethostname getpid)
      = Raise ValueError).
Proof.
  unfold cluster.integer_if_set, cluster.load_cluster_jobids_to,
    cluster.chosen_job, cluster.int_or_unset.
  destruct (environ "SLURM_JOBID"%string) as [v1|] eqn:E1.
  all: try destruct (int_ v1) as [n1|] eqn:I1.
  all: destruct (environ "SLURM_ARRAY_TASK_ID"%string) as [v2|] eqn:E2.
  all: try destruct (int_ v2) as [n2|] eqn:I2.
  all: destruct (environ "CONDOR_JOB_ID"%string) as [v3|] eqn:E3.
  all: try destruct (int_ v3) as [n3|] eqn:I3.
  all: split;
    [ intros H1 H2 H3;
      try (destruct (H1 _ eq_refl) as (? & ?); congruence);
      try (destruct (H2 _ eq_refl) as (? & ?); congruence);
      try (destruct (H3 _ eq_refl) as (? & ?); congruence);
      cbn [cluster.jobid cluster.slurm_jobid cluster.slurm_array_task_id
           cluster.condor_jobid cluster.hostname];
      destruct (environ "PBS_JOBID"%string) as [v4|];
      try destruct (int_ v4); reflexivity
    | intros Hbad; try reflexivity;
      exfalso; apply Hbad; repeat split; intros v E;
      try discriminate; injection E as <-; eauto ].
Qed.

(** A run on a [dgx] host under Slurm and PBS, the PBS identifier not being
    an integer. *)
Example cluster_on_dgx :
  cluster.load_cluster_jobids_to
    (fun name => if String.eqb name "SLURM_JOBID" then Some "17"%string
                 else if String.eqb name "PBS_JOBID" then Some "4242.pbs01"%string
                 else None)
    (fun v => if String.eqb v "17" then Some 17 else None)
    "dgx-3" 99
  = (Ok tt, cluster.Build (cluster.JobStr "4242.pbs01_pid_99") 17 (-1) (-1) "dgx-3").
Proof. vm_compute. reflexivity. Qed.

(** * Making a namespace picklable

    [make_args_pickable] of [uutils/__init__.py]. A namespace is the list of
    its attributes in order; [pickles] is [dill.pickles], [str_] is [str]
    and [of_str] makes a value of a string. *)

Module pickable.

Section Namespace.

Context {V : Type}.
Variable pickles : V -> bool.
Variable str_ : V -> string.
Variable of_str : string -> V.

(** [setattr(ns, field, v)]: the attribute is replaced where it stands, or
    added at the end. *)
Fixpoint setattr (ns : list (string * V)) (field : string) (v : V)
  : list (string * V) :=
  match ns with
  | [] => [(field, v)]
  | (f, x) :: ns' =>
      if String.eqb f field then (f, v) :: ns'
      else (f, x) :: setattr ns' field v
  end.

(** The loop runs over the attributes of [args], [field_val] being the
    value of [field]. *)
Definition make_args_pickable (args : list (string * V)) : list (string * V) :=
  fold_left
    (fun pickable_args (attribute : string * V) =>
       let (field, field_val) := attribute in
       let field_val :=
         if negb (pickles field_val) then of_str (str_ field_val)
         else field_val in
       setattr pickable_args field field_val)
    args [].

(** What the loop does to one value. *)
Definition pickable_value (v : V) : V :=
  if negb (pickles v) then of_str (str_ v) else v.

Lemma setattr_fresh (ns : list (string * V)) (field : string) (v : V) :
  ~ In field (map fst ns) -> setattr ns field v = ns ++ [(field, v)].
Proof.
  induction ns as [|[f x] ns IH]; simpl; intros Hfresh; [reflexivity|].
  destruct (String.eqb_spec f field) as [->|Hne]; [tauto|].
  rewrite IH by tauto. reflexivity.
Qed.

Lemma make_args_pickable_map (args : list (string * V)) :
  NoDup (map fst args) ->
  make_args_pickable args
  = map (fun attribute => (fst attribute, pickable_value (snd attribute))) args.
Proof.
  unfold make_args_pickable.
  assert (Hgen : forall items acc,
             NoDup (map fst acc ++ map fst items) ->
             fold_left
               (fun pickable_args (attribute : string * V) =>
                  let (field, field_val) := attribute in
                  let field_val :=
                    if negb (pickles field_val) then of_str (str_ field_val)
                    else field_val in
                  setattr pickable_args field field_val)
               items acc
             = acc ++ map (fun attribute =>
                             (fst attribute, pickable_value (snd attribute)))
                          items).
  { induction items as [|[f v] items IH]; intros acc ND; simpl.
    - now rewrite app_nil_r.
    - rewrite setattr_fresh.
      + rewrite IH.
        * rewrite <- app_assoc. reflexivity.
        * rewrite map_app. simpl. rewrite <- app_assoc. exact ND.
      + simpl in ND. apply NoDup_remove_2 in ND. intros Hin. apply ND.
        apply in_or_app. now left. }
  intros ND. now rewrite Hgen.
Qed.

End Namespace.

End pickable.

(** X15. [make_args_pickable] on a namespace (no attribute twice), strings
    being picklable: the result has the same attributes in the same order;
    every value in it pickles; an attribute whose value pickles keeps it,
    and one whose value does not gets the string of that value; and making
    the result picklable again changes nothing. *)
Theorem make_args_pickable_sanitises {V : Type}
    (pickles : V -> bool) (str_ : V -> string) (of_str : string -> V)
    (args : list (string * V)) :
  NoDup (map fst args) ->
  (forall s, pickles (of_str s) = true) ->
  map fst (pickable.make_args_pickable pickles str_ of_str args) = map fst args
  /\ Forall (fun attribute => pickles (snd attribute) = true)
            (pickable.make_args_pickable pickles str_ of_str args)
  /\ (forall field v,
        In (field, v) args ->
        In (field, if pickles v then v else of_str (str_ v))
           (pickable.make_args_pickable pickles str_ of_str args))
  /\ pickable.make_args_pickable pickles str_ of_str
       (pickable.make_args_pickable pickles str_ of_str args)
     = pickable.make_args_pickable pickles str_ of_str args.
Proof.
  intros ND Hstr.
  rewrite (pickable.make_args_pickable_map pickles str_ of_str args ND).
  set (g := fun attribute : string * V =>
              (fst attribute, pickable.pickable_value pickles str_ of_str
                                (snd attribute))).
  assert (Hfst : map fst (map g args) = map fst args).
  { rewrite map_map. reflexivity. }
  assert (Hp : forall v, pickles (pickable.pickable_value pickles str_ of_str v) = true).
  { intros v. unfold pickable.pickable_value.
    destruct (pickles v) eqn:E; simpl; [exact E|apply Hstr]. }
  split; [exact Hfst|]. split; [|split].
  - apply Forall_map, Forall_forall. intros [f v] _. apply Hp.
  - intros field v Hin.
    apply (in_map g) in Hin. unfold g at 1 in Hin. simpl in Hin.
    unfold pickable.pickable_value in Hin. now destruct (pickles v).
  - rewrite (pickable.make_args_pickable_map pickles str_ of_str (map g args))
      by (rewrite Hfst; exact ND).
    rewrite map_map. apply map_ext. intros [f v]. unfold g. simpl. f_equal.
    unfold pickable.pickable_value at 1. now rewrite Hp.
Qed.

(** Values for an example: a string, or a function that does not pickle and
    prints as its name in brackets. *)
Inductive demo_value : Set :=
| DemoStr (s : string)
| DemoLambda (name : string).

Definition demo_pickles (v : demo_value) : bool :=
  match v with
  | DemoStr _ => true
  | DemoLambda _ => false
  end.

Definition demo_str (v : demo_value) : string :=
  match v with
  | DemoStr s => s
  | DemoLambda name => ("<function " ++ name ++ ">")%string
  end.

Lemma make_args_pickable_sanitises_witness :
  pickable.make_args_pickable demo_pickles demo_str DemoStr
    [("lr"%string, DemoStr "0.1"); ("criterion"%string, DemoLambda "loss")]
  = [("lr"%string, DemoStr "0.1");
     ("criterion"%string, DemoStr "<function loss>")]
  /\ Forall (fun attribute => demo_pickles (snd attribute) = true)
       (pickable.make_args_pickable demo_pickles demo_str DemoStr
          [("lr"%string, DemoStr "0.1"); ("criterion"%string, DemoLambda "loss")]).
Proof.
  split; [reflexivity|].
  apply (make_args_pickable_sanitises demo_pickles demo_str DemoStr
           [("lr"%string, DemoStr "0.1"); ("criterion"%string, DemoLambda "loss")]).
  - repeat constructor; simpl; intuition discriminate.
  - reflexivity.
Defined.
